(** * Static feature extraction and prediction adapter of [streamlit_app.py]

    A shallow embedding of the feature-extraction core of the application:
    the import weight table, the [FeatureExtractor] syntax walker,
    [extract_features_and_code_from_file] and [predict_for_features],
    followed by the properties proved about them.

    Python integers are [Z]; identifiers and dictionary keys are [string];
    the text of a file is a list of Unicode code points; dictionaries are
    [gmap]s and the set of imported libraries is a [gset]. *)

From Stdlib Require Import ZArith String Ascii List Permutation.
From Stdlib Require Import DecimalString.
From stdpp Require Import gmap strings list fin_maps fin_sets.

Set Warnings "-register-all,-clear-no-such-hyp".
Local Open Scope Z_scope.
Local Open Scope string_scope.

(** ** Text *)

(** A Python [str] is a sequence of Unicode code points. *)
Definition char : Type := N.
Definition text : Type := list char.

(** The text of an ASCII literal. *)
Definition str (s : string) : text :=
  map (fun a : ascii => N.of_nat (nat_of_ascii a)) (list_ascii_of_string s).

(** ** Syntax trees

    The node classes of Python's [ast] module that the program discriminates
    on, with the fields it reads; every other class ([Expr], [Assign],
    [Constant], [Load], [AsyncFor], ...) is [Other], tagged with its class
    name.  A list of children holds the child nodes of all fields in field
    order, the order in which [ast.iter_child_nodes] yields them: for a
    [For] the target, the iterable, the body and the [else] part; for a
    [Call] the callee [func], then the arguments and keywords. *)

Record alias : Type := { alias_name : string; asname : option string }.

Inductive node : Type :=
| Module (body : list node)
| FunctionDef (name : string) (children : list node)
| ClassDef (name : string) (children : list node)
| For (children : list node)
| While (children : list node)
| If (children : list node)
| Import (names : list alias)
| ImportFrom (module : option string) (names : list alias) (level : Z)
| Call (func : node) (args : list node)
| Name (id : string) (ctx : node)
| Attribute (value : node) (attr : string) (ctx : node)
| Alias (a : alias)
| Other (cls : string) (children : list node).

(** [ast.iter_child_nodes]. *)
Definition iter_child_nodes (n : node) : list node :=
  match n with
  | Module body => body
  | FunctionDef _ cs | ClassDef _ cs => cs
  | For cs | While cs | If cs => cs
  | Import names => map Alias names
  | ImportFrom _ names _ => map Alias names
  | Call func args => func :: args
  | Name _ ctx => [ctx]
  | Attribute value _ ctx => [value; ctx]
  | Alias _ => []
  | Other _ cs => cs
  end.

(** Number of nodes of a tree. *)
Fixpoint size (n : node) : nat :=
  let sizes := fix sizes (l : list node) : nat :=
    match l with [] => O | c :: l' => (size c + sizes l')%nat end in
  match n with
  | Module body => S (sizes body)
  | FunctionDef _ cs | ClassDef _ cs => S (sizes cs)
  | For cs | While cs | If cs => S (sizes cs)
  | Import names => S (length names)
  | ImportFrom _ names _ => S (length names)
  | Call func args => S (size func + sizes args)
  | Name _ ctx => S (size ctx)
  | Attribute value _ ctx => S (size value + size ctx)
  | Alias _ => 1%nat
  | Other _ cs => S (sizes cs)
  end.

(** [ast.walk]: breadth-first, with a queue.
<<
    todo = deque([node])
    while todo:
        node = todo.popleft()
        todo.extend(iter_child_nodes(node))
        yield node
>>
    One node leaves the queue per iteration, so the number of nodes of the
    tree bounds the number of iterations. *)
Fixpoint walk_queue (fuel : nat) (todo : list node) : list node :=
  match fuel, todo with
  | S fuel', n :: rest => n :: walk_queue fuel' (rest ++ iter_child_nodes n)
  | _, _ => []
  end.

Definition walk (tree : node) : list node := walk_queue (size tree) [tree].


(** ** Python helpers *)

(** Exceptions that escape the modelled functions.  The [RecursionError]
    that the interpreter raises when the recursive walk of a very deep tree
    exceeds its recursion limit is outside the model: what is proved about
    a walk is about a walk that completes. *)
Inductive exn : Type :=
| UnboundLocalError (var : string).

(** The outcome of a call: a returned value or a raised exception. *)
Inductive result (A : Type) : Type :=
| Returned (a : A)
| Raised (e : exn).
Arguments Returned {A} a.
Arguments Raised {A} e.

(** Sequencing: an exception raised by the first computation propagates. *)
#[global] Instance result_bind : MBind result := fun A B k r =>
  match r with
  | Returned a => k a
  | Raised e => Raised e
  end.

(** The built-in [sum] over integers. *)
Definition py_sum (l : list Z) : Z := fold_left Z.add l 0.

(** Truth value of a string: non-empty. *)
Definition truthy (s : string) : bool :=
  match s with EmptyString => false | String _ _ => true end.

(** [s.split(sep)] for a one-character separator. *)
Fixpoint split (sep : ascii) (s : string) : list string :=
  match s with
  | EmptyString => [EmptyString]
  | String c s' =>
      if Ascii.eqb c sep then EmptyString :: split sep s'
      else match split sep s' with
           | seg :: segs => String c seg :: segs
           | [] => [String c EmptyString]
           end
  end.

(** [s.split('.')[0]]; [split] never returns the empty list
    (see [split_nonempty]), so the index 0 is always in range. *)
Definition first_segment (s : string) : string := hd EmptyString (split "." s).

(** Line boundaries of [str.splitlines]. *)
Definition LF : char := 10%N.
Definition CR : char := 13%N.

Definition islinebreak (c : char) : bool :=
  existsb (N.eqb c)
    [10; 11; 12; 13; 28; 29; 30; 133; 8232; 8233]%N.

(** [str.splitlines()], following CPython: scan to the next line boundary,
    take a carriage return followed by a line feed as one boundary, emit
    the line without it; a line is emitted at the end of the text only when
    characters are pending.  [cur] holds the pending line, reversed. *)
Fixpoint splitlines_from (cur : text) (s : text) : list text :=
  match s with
  | [] => match cur with [] => [] | _ => [rev cur] end
  | c :: rest =>
      if islinebreak c then
        match rest with
        | c' :: rest' =>
            if (c =? CR)%N && (c' =? LF)%N
            then rev cur :: splitlines_from [] rest'
            else rev cur :: splitlines_from [] rest
        | [] => [rev cur]
        end
      else splitlines_from (c :: cur) rest
  end.

Definition splitlines (s : text) : list text := splitlines_from [] s.

(** ** Configuration *)

Definition FEATURES_ORDER : list string :=
  ["LOC"; "No_of_Functions"; "No_of_Classes"; "No_of_Loops";
   "Loop_Nesting_Depth"; "No_of_Conditional_Blocks"; "Import_Score";
   "I/O Calls"].

Definition library_weights_items : list (string * Z) :=
  [("torch", 10); ("tensorflow", 10); ("jax", 9); ("keras", 9);
   ("transformers", 9); ("lightgbm", 8); ("xgboost", 8); ("catboost", 8);
   ("sklearn", 7); ("scikit-learn", 7); ("pandas", 6); ("numpy", 6);
   ("dask", 7); ("polars", 6); ("matplotlib", 4); ("seaborn", 4);
   ("plotly", 5); ("bokeh", 5); ("altair", 4); ("cv2", 6); ("PIL", 4);
   ("imageio", 3); ("scikit-image", 4); ("nltk", 5); ("spacy", 6);
   ("gensim", 5); ("requests", 2); ("httpx", 2); ("urllib", 1);
   ("aiohttp", 3); ("fastapi", 4); ("flask", 3); ("django", 5);
   ("openpyxl", 3); ("csv", 1); ("json", 1); ("sqlite3", 2);
   ("sqlalchemy", 3); ("h5py", 4); ("pickle", 2); ("os", 1); ("sys", 1);
   ("shutil", 1); ("glob", 1); ("pathlib", 1); ("math", 1);
   ("statistics", 1); ("scipy", 5); ("datetime", 1); ("time", 1);
   ("calendar", 1); ("re", 1); ("argparse", 1); ("typing", 1);
   ("logging", 1); ("threading", 2); ("multiprocessing", 3);
   ("concurrent", 3); ("subprocess", 3); ("random", 1); ("uuid", 1);
   ("hashlib", 1); ("base64", 1); ("decimal", 1); ("boto3", 6);
   ("google.cloud", 6); ("azure", 6); ("pyspark", 9); ("IPython", 2);
   ("jupyter", 2)].

Definition library_weights : gmap string Z := list_to_map library_weights_items.

(** [library_weights.get(lib, 2)]. *)
Definition weight (lib : string) : Z := default 2 (library_weights !! lib).

Definition file_io_funcs : gset string :=
  list_to_set ["open"; "read"; "write"; "remove"; "rename"; "copy"; "seek";
               "tell"; "flush"].

(** ** The syntax walker: class [FeatureExtractor] *)

Record FeatureExtractor : Type := {
  max_loop_depth : Z;
  current_depth : Z;
  file_io_calls : Z
}.

(** [__init__]. *)
Definition new_FeatureExtractor : FeatureExtractor :=
  {| max_loop_depth := 0; current_depth := 0; file_io_calls := 0 |}.

(** First statement line of [visit_For] and [visit_While]. *)
Definition enter_loop (self : FeatureExtractor) : FeatureExtractor :=
  let d := current_depth self + 1 in
  {| max_loop_depth := Z.max (max_loop_depth self) d;
     current_depth := d;
     file_io_calls := file_io_calls self |}.

(** [self.current_depth -= 1]. *)
Definition leave_loop (self : FeatureExtractor) : FeatureExtractor :=
  {| max_loop_depth := max_loop_depth self;
     current_depth := current_depth self - 1;
     file_io_calls := file_io_calls self |}.

(** The name [visit_Call] extracts from the callee: [None] when the callee
    is neither a [Name] nor an [Attribute]. *)
Definition func_name (func : node) : option string :=
  match func with
  | Name id _ => Some id
  | Attribute _ attr _ => Some attr
  | _ => None
  end.

(** [func_name in file_io_funcs]. *)
Definition in_file_io_funcs (name : option string) : bool :=
  match name with
  | Some s => bool_decide (s ∈ file_io_funcs)
  | None => false
  end.

(** The first two statement lines of [visit_Call] together with its test. *)
Definition count_call (func : node) (self : FeatureExtractor) : FeatureExtractor :=
  if in_file_io_funcs (func_name func)
  then {| max_loop_depth := max_loop_depth self;
          current_depth := current_depth self;
          file_io_calls := file_io_calls self + 1 |}
  else self.

(** [NodeVisitor.visit]: dispatch on the class of the node to [visit_For],
    [visit_While], [visit_Call], and to [generic_visit] for every other
    class; [generic_visit] visits the children in field order. *)
Fixpoint visit (n : node) (self : FeatureExtractor) : FeatureExtractor :=
  let generic_visit :=
    fix generic_visit (cs : list node) (self : FeatureExtractor) :=
      match cs with
      | [] => self
      | c :: cs' => generic_visit cs' (visit c self)
      end in
  match n with
  | For cs | While cs => leave_loop (generic_visit cs (enter_loop self))
  | Call func args => generic_visit args (visit func (count_call func self))
  | Module cs | FunctionDef _ cs | ClassDef _ cs | If cs | Other _ cs =>
      generic_visit cs self
  | Name _ ctx => visit ctx self
  | Attribute value _ ctx => visit ctx (visit value self)
  | Import _ | ImportFrom _ _ _ | Alias _ => self
  end.

(** ** The feature aggregator *)

Definition is_FunctionDef (n : node) : bool :=
  match n with FunctionDef _ _ => true | _ => false end.
Definition is_ClassDef (n : node) : bool :=
  match n with ClassDef _ _ => true | _ => false end.
Definition is_loop (n : node) : bool :=
  match n with For _ | While _ => true | _ => false end.
Definition is_If (n : node) : bool :=
  match n with If _ => true | _ => false end.

(** [sum(isinstance(node, C) for node in ast.walk(tree))]. *)
Definition count_instances (isinstance : node -> bool) (tree : node) : Z :=
  py_sum (map (fun n => Z.b2z (isinstance n)) (walk tree)).

(** The local variables of the import loop.  [lib] is unbound ([None])
    until its first assignment. *)
Record import_locals : Type := {
  lib : option string;
  imported_libs : gset string;
  num_imports : Z
}.

Definition import_locals_init : import_locals :=
  {| lib := None; imported_libs := ∅; num_imports := 0 |}.

(** Body of [for name in node.names]. *)
Definition import_alias (st : import_locals) (name : alias) : import_locals :=
  let l := first_segment (alias_name name) in
  {| lib := Some l;
     imported_libs := if truthy l then {[l]} ∪ imported_libs st
                      else imported_libs st;
     num_imports := num_imports st + 1 |}.

(** The [ImportFrom] branch: [lib] is assigned only under
    [if node.module:], and read by the next statement in either case. *)
Definition import_from (st : import_locals) (module : option string)
  : result import_locals :=
  let lib' :=
    match module with
    | Some m => if truthy m then Some (first_segment m) else lib st
    | None => lib st
    end in
  match lib' with
  | None => Raised (UnboundLocalError "lib")
  | Some l =>
      Returned {| lib := Some l;
                  imported_libs := if truthy l then {[l]} ∪ imported_libs st
                                   else imported_libs st;
                  num_imports := num_imports st + 1 |}
  end.

(** Body of [for node in ast.walk(tree)]. *)
Definition import_step (st : import_locals) (n : node) : result import_locals :=
  match n with
  | Import names => Returned (fold_left import_alias names st)
  | ImportFrom module _ _ => import_from st module
  | _ => Returned st
  end.

Fixpoint import_loop (nodes : list node) (st : import_locals)
  : result import_locals :=
  match nodes with
  | [] => Returned st
  | n :: rest => st' ← import_step st n; import_loop rest st'
  end.

(** [sum(library_weights.get(lib, 2) for lib in imported_libs)]. *)
Definition weighted_import_score (libs : gset string) : Z :=
  py_sum (map weight (elements libs)).

(** The statements after a successful parse, up to the assembled
    dictionary.  The import loop is the only one that can raise. *)
Definition features_of (source_code : text) (tree : node)
  : result (gmap string Z) :=
  let num_lines := Z.of_nat (length (splitlines source_code)) in
  let num_functions := count_instances is_FunctionDef tree in
  let num_classes := count_instances is_ClassDef tree in
  let num_loops := count_instances is_loop tree in
  let num_conditional_blocks := count_instances is_If tree in
  st ← import_loop (walk tree) import_locals_init;
  let score := weighted_import_score (imported_libs st) in
  let extractor := visit tree new_FeatureExtractor in
  Returned (list_to_map
    [("LOC", num_lines); ("No_of_Functions", num_functions);
     ("No_of_Classes", num_classes); ("No_of_Loops", num_loops);
     ("Loop_Nesting_Depth", max_loop_depth extractor);
     ("No_of_Conditional_Blocks", num_conditional_blocks);
     ("Import_Score", score);
     ("I/O Calls", file_io_calls extractor)]).

Section Extraction.

(** The two external collaborators: reading the file as text ([None] when
    [open] or [read] raises) and [ast.parse] ([None] when it raises).  The
    messages the function prints and shows in the two handlers are left
    out; its result is modelled. *)
Variable read_file : string -> option text.
Variable ast_parse : text -> option node.

Definition extract_features_and_code_from_file (file_path : string)
  : result (option (gmap string Z) * option text) :=
  match read_file file_path with
  | None => Returned (None, None)
  | Some source_code =>
      match ast_parse source_code with
      | None => Returned (None, Some source_code)
      | Some tree =>
          features_dict ← features_of source_code tree;
          Returned (Some features_dict, Some source_code)
      end
  end.

End Extraction.


(** ** The prediction adapter *)

Section Prediction.

(** Feature values are Python scalars of a type [value]; [output] is the
    type of the entries of the array the model returns.  The function
    [to_numeric] is [pd.to_numeric(v, errors='coerce')] on a scalar:
    a number, or the null [NaN], here [None]. *)
Context {value numeric output : Type}.
Variable to_numeric : value -> option numeric.

(** A data frame: its column labels and its rows of cells. *)
Record DataFrame : Type := {
  columns : list string;
  rows : list (list (option numeric))
}.

(** What the adapter does to the outside: a message on the error channel,
    or a call of the model's inference entry point. *)
Inductive event : Type :=
| st_error (msg : string)
| model_predict (input_df : DataFrame).

(** [model.predict]: the output array, or the message of the exception it
    raises. *)
Definition model : Type := DataFrame -> string + list output.

Definition non_numeric_error : string :=
  "Error: Non-numeric values found in extracted features during prediction step.".

Definition prediction_error (e : string) : string :=
  "Error during prediction step: " ++ e.

Definition index_error : string :=
  "index 0 is out of bounds for axis 0 with size 0".

(** [pd.DataFrame(input_features, columns=FEATURES_ORDER)] where every
    value of [input_features] is a one-element list: the frame has the
    columns of [FEATURES_ORDER]; it has one row when at least one of these
    labels is a key of the dictionary (a label that is not a key gets a
    null cell) and no row otherwise.  Other keys are dropped. *)
Definition make_DataFrame (input_features : gmap string (list (option numeric)))
  : DataFrame :=
  {| columns := FEATURES_ORDER;
     rows :=
       if forallb (fun key => bool_decide (input_features !! key = None))
                  FEATURES_ORDER
       then []
       else [map (fun key => match input_features !! key with
                             | Some (cell :: _) => cell
                             | _ => None
                             end) FEATURES_ORDER] |}.

(** [input_df.isnull().values.any()]. *)
Definition isnull_any (df : DataFrame) : bool :=
  existsb (existsb (fun cell : option numeric => bool_decide (cell = None)))
          (rows df).

(** The result of [predict_for_features] with the events it caused, in
    order. *)
Definition predict_for_features (predict : model)
    (features_dict : gmap string value) : option output * list event :=
  let input_features := (fun v => [to_numeric v]) <$> features_dict in
  let input_df := make_DataFrame input_features in
  if isnull_any input_df then (None, [st_error non_numeric_error])
  else
    match predict input_df with
    | inr (y :: _) => (Some y, [model_predict input_df])
    | inr [] =>
        (None, [model_predict input_df; st_error (prediction_error index_error)])
    | inl e => (None, [model_predict input_df; st_error (prediction_error e)])
    end.

End Prediction.

Arguments st_error {numeric} msg.
Arguments model_predict {numeric} input_df.

(** ** Definitions used to state the properties *)

(** The nodes of a tree in depth-first preorder. *)
Fixpoint preorder (n : node) : list node :=
  let preorder_list := fix preorder_list (l : list node) : list node :=
    match l with [] => [] | c :: l' => (preorder c ++ preorder_list l')%list end in
  n :: match n with
       | Module cs | FunctionDef _ cs | ClassDef _ cs | For cs | While cs
       | If cs | Other _ cs => preorder_list cs
       | Import names | ImportFrom _ names _ => map Alias names
       | Call func args => (preorder func ++ preorder_list args)%list
       | Name _ ctx => preorder ctx
       | Attribute value _ ctx => (preorder value ++ preorder ctx)%list
       | Alias _ => []
       end.

(** Total number of nodes of a queue of trees. *)
Definition total_size (todo : list node) : nat := list_sum (map size todo).

(** A call expression that counts as file I/O: the callee is a bare name or
    an attribute access whose member name is one of the nine names. *)
Definition io_names : list string :=
  ["open"; "read"; "write"; "remove"; "rename"; "copy"; "seek"; "tell"; "flush"].

Definition io_call_site (n : node) : bool :=
  match n with
  | Call (Name id _) _ => bool_decide (id ∈ io_names)
  | Call (Attribute _ attr _) _ => bool_decide (attr ∈ io_names)
  | _ => false
  end.

(** The top-level names a node imports: the first dotted segment of every
    imported path of an [import], of the module of a [from ... import];
    nothing for an absent or empty module, nothing for an empty segment. *)
Definition top_level_names (n : node) : list string :=
  match n with
  | Import names =>
      filter (fun l => truthy l = true)
             (map (fun a => first_segment (alias_name a)) names)
  | ImportFrom (Some m) _ _ =>
      if truthy m && truthy (first_segment m) then [first_segment m] else []
  | _ => []
  end.

(** The deduplicated set of top-level names imported anywhere in a tree. *)
Definition imported_top_level (tree : node) : gset string :=
  list_to_set (flat_map top_level_names (walk tree)).

(** The number of line terminators of a text: every line boundary counts
    once, a carriage return directly followed by a line feed being one. *)
Fixpoint count_terminators (s : text) : nat :=
  match s with
  | [] => O
  | c :: rest =>
      if islinebreak c then
        match rest with
        | c' :: rest' =>
            if (c =? CR)%N && (c' =? LF)%N
            then S (count_terminators rest')
            else S (count_terminators rest)
        | [] => 1%nat
        end
      else count_terminators rest
  end.

(** A text ends with a line terminator. *)
Definition ends_with_terminator (s : text) : bool :=
  match last s with
  | Some c => islinebreak c
  | None => false
  end.

(** [generic_visit]: the children are visited in order. *)
Definition visit_children (cs : list node) (self : FeatureExtractor)
  : FeatureExtractor :=
  fold_left (fun s c => visit c s) cs self.

(** The test of [visit_Call] on a node. *)
Definition is_io_call (n : node) : bool :=
  match n with
  | Call func _ => in_file_io_funcs (func_name func)
  | _ => false
  end.

(** Number of nodes of a list that pass a test. *)
Definition count_in (f : node -> bool) (l : list node) : Z :=
  py_sum (map (fun n => Z.b2z (f n)) l).

(** The invariant of the import loop: once [lib] is bound to a non-empty
    name, that name is already in the set. *)
Definition lib_recorded (st : import_locals) : Prop :=
  forall l, lib st = Some l -> truthy l = true -> l ∈ imported_libs st.

(** A line is pending at the end of the scan of [s] that started with the
    pending characters [cur]. *)
Definition pending_line (cur s : text) : bool :=
  match last s with
  | Some c => negb (islinebreak c)
  | None => match cur with [] => false | _ => true end
  end.

(** A simple split of a text at its line terminators: the pieces between
    them, so one piece more than there are terminators. *)
Fixpoint split_at_terminators_from (cur : text) (s : text) : list text :=
  match s with
  | [] => [rev cur]
  | c :: rest =>
      if islinebreak c then
        match rest with
        | c' :: rest' =>
            if (c =? CR)%N && (c' =? LF)%N
            then rev cur :: split_at_terminators_from [] rest'
            else rev cur :: split_at_terminators_from [] rest
        | [] => [rev cur; []]
        end
      else split_at_terminators_from (c :: cur) rest
  end.

Definition split_at_terminators (s : text) : list text :=
  split_at_terminators_from [] s.

(** Occurrence of a character in a string. *)
Fixpoint contains (c : ascii) (s : string) : bool :=
  match s with
  | EmptyString => false
  | String c' s' => Ascii.eqb c' c || contains c s'
  end.

Fixpoint string_forallb (f : ascii -> bool) (s : string) : bool :=
  match s with
  | EmptyString => true
  | String c s' => f c && string_forallb f s'
  end.

(** The characters of a Python identifier, as bytes of its UTF-8 encoding:
    ASCII letters, digits and the underscore, and every byte of a non-ASCII
    character. *)
Definition is_identifier_char (c : ascii) : bool :=
  let n := N_of_ascii c in
  ((48 <=? n) && (n <=? 57) || (65 <=? n) && (n <=? 90) || (n =? 95)
   || (97 <=? n) && (n <=? 122) || (128 <=? n))%N.

(** The module paths the grammar allows in an import statement: identifiers
    separated by dots. *)
Definition dotted_name (s : string) : bool :=
  string_forallb (fun c => is_identifier_char c || Ascii.eqb c ".") s.

(** The keys of the weight table that are not a single dotted segment of a
    module path. *)
Definition unreachable_keys : list string :=
  ["google.cloud"; "scikit-learn"; "scikit-image"].

(** Every module path an import node names is one the grammar allows. *)
Definition import_names_wellformed (n : node) : bool :=
  match n with
  | Import names => forallb (fun a => dotted_name (alias_name a)) names
  | ImportFrom (Some m) _ _ => dotted_name m
  | _ => true
  end.

(** The cell of the single row under a label: the coerced value of the
    field, null when the label is not a key. *)
Definition coerced {value numeric : Type} (to_numeric : value -> option numeric)
    (d : gmap string value) (key : string) : option numeric :=
  d !! key ≫= to_numeric.

(** A dictionary is a feature record when its keys are the eight labels. *)
Definition is_feature_record {value : Type} (d : gmap string value) : Prop :=
  dom d = list_to_set FEATURES_ORDER.

(** A node the import loop passes without touching its local [lib]. *)
Definition leaves_lib_unbound (n : node) : bool :=
  match n with
  | Import (_ :: _) | ImportFrom _ _ _ => false
  | _ => true
  end.

(** A node that is not a [from ... import] with an absent or empty module. *)
Definition has_module (n : node) : bool :=
  match n with
  | ImportFrom (Some m) _ _ => truthy m
  | ImportFrom None _ _ => false
  | _ => true
  end.

(** What one visit does to the three fields, in terms of the nodes below
    the visited one: the running depth is restored, the maximum grows by at
    most the number of loops below, and the I/O counter grows by the number
    of I/O call sites below. *)
Definition visit_effect (nodes : list node) (self self' : FeatureExtractor) : Prop :=
  current_depth self' = current_depth self /\
  max_loop_depth self <= max_loop_depth self' /\
  max_loop_depth self' <=
    Z.max (max_loop_depth self) (current_depth self + count_in is_loop nodes) /\
  file_io_calls self' = file_io_calls self + count_in is_io_call nodes.

(** ** Sample inputs *)

Definition Load : node := Other "Load" [].
Definition Store : node := Other "Store" [].
Definition Constant : node := Other "Constant" [].

(** Two nested [for] loops around a call of [open], and the tree
    [ast.parse] builds for this text. *)
Definition source_nested_loops : text :=
  str "for i in range(3):
    for j in range(3):
        open('f')
".

Definition tree_nested_loops : node :=
  Module
    [For [Name "i" Store;
          Call (Name "range" Load) [Constant];
          For [Name "j" Store;
               Call (Name "range" Load) [Constant];
               Other "Expr" [Call (Name "open" Load) [Constant]]]]].

(** A file whose only import is relative, with no module. *)
Definition source_relative_import : text := str "from . import x
".

Definition tree_relative_import : node :=
  Module [ImportFrom None [{| alias_name := "x"; asname := None |}] 1].

(** [import google.cloud.storage]. *)
Definition tree_import_google : node :=
  Module [Import [{| alias_name := "google.cloud.storage"; asname := None |}]].

(** The calls [obj.read()], [read()] and [reader.readline()]. *)
Definition call_obj_read : node :=
  Call (Attribute (Name "obj" Load) "read" Load) [].
Definition call_read : node := Call (Name "read" Load) [].
Definition call_reader_readline : node :=
  Call (Attribute (Name "reader" Load) "readline" Load) [].

(** A file system holding one file, and a parser that knows one text. *)
Definition read_only (path : string) (source : text) : string -> option text :=
  fun p => if String.eqb p path then Some source else None.

Definition parse_only (source : text) (tree : node) : text -> option node :=
  fun s => if bool_decide (s = source) then Some tree else None.

(** Two imports of submodules of one library. *)
Definition tree_import_twice (l : string) : node :=
  Module [Import [{| alias_name := l ++ ".a"; asname := None |}];
          Import [{| alias_name := l ++ ".b"; asname := None |}]].

(** A single import. *)
Definition tree_import_one (name : string) : node :=
  Module [Import [{| alias_name := name; asname := None |}]].

(** The feature record of the nested loops. *)
Definition features_nested_loops : gmap string Z :=
  list_to_map
    [("LOC", 3); ("No_of_Functions", 0); ("No_of_Classes", 0);
     ("No_of_Loops", 2); ("Loop_Nesting_Depth", 2);
     ("No_of_Conditional_Blocks", 0); ("Import_Score", 0); ("I/O Calls", 1)].

(** A two-line text with no terminator at its end, and a tree for it. *)
Definition source_two_lines : text := str "x = 1
y = 2".

Definition tree_two_lines : node :=
  Module [Other "Assign" [Name "x" Store; Constant];
          Other "Assign" [Name "y" Store; Constant]].

Definition features_two_lines : gmap string Z :=
  list_to_map
    [("LOC", 2); ("No_of_Functions", 0); ("No_of_Classes", 0);
     ("No_of_Loops", 0); ("Loop_Nesting_Depth", 0);
     ("No_of_Conditional_Blocks", 0); ("Import_Score", 0); ("I/O Calls", 0)].

(** A file importing two known libraries, one of them twice, with the
    record extraction returns for it (its text does not matter here). *)
Definition tree_imports : node :=
  Module
    [Import [{| alias_name := "torch.nn"; asname := None |};
             {| alias_name := "os.path"; asname := None |}];
     ImportFrom (Some "torch.optim") [{| alias_name := "Adam"; asname := None |}] 0].

Definition features_imports : gmap string Z :=
  list_to_map
    [("LOC", 3); ("No_of_Functions", 0); ("No_of_Classes", 0);
     ("No_of_Loops", 0); ("Loop_Nesting_Depth", 0);
     ("No_of_Conditional_Blocks", 0); ("Import_Score", 11); ("I/O Calls", 0)].

(** Sample scalars: integers and strings, the strings not being numbers. *)
Inductive sample_value : Type :=
| VInt (z : Z)
| VStr (s : string).

Definition sample_to_numeric (v : sample_value) : option Z :=
  match v with
  | VInt z => Some z
  | VStr _ => None
  end.

(** A model that answers with the sum of the row it is given. *)
Definition sample_model : @model Z Z :=
  fun df =>
    inr (map (fun row => py_sum (map (default 0) row)) (rows df)).

Definition record_numeric : gmap string sample_value :=
  list_to_map
    [("LOC", VInt 3); ("No_of_Functions", VInt 0); ("No_of_Classes", VInt 0);
     ("No_of_Loops", VInt 2); ("Loop_Nesting_Depth", VInt 2);
     ("No_of_Conditional_Blocks", VInt 0); ("Import_Score", VInt 0);
     ("I/O Calls", VInt 1)].

Definition record_non_numeric : gmap string sample_value :=
  <["No_of_Loops" := VStr "two"]> record_numeric.

(** ** Further definitions: loop nesting and the import loop *)

(** The largest number of a list of non-negative numbers, 0 for none. *)
Definition max_list (l : list Z) : Z := fold_right Z.max 0 l.

(** The loop nesting depth of a tree: the largest number of [For] and
    [While] nodes on a path from the root to a node. *)
Fixpoint loop_depth (n : node) : Z :=
  let depth_list := fix depth_list (l : list node) : Z :=
    match l with [] => 0 | c :: l' => Z.max (loop_depth c) (depth_list l') end in
  match n with
  | For cs | While cs => 1 + depth_list cs
  | Module cs | FunctionDef _ cs | ClassDef _ cs | If cs | Other _ cs =>
      depth_list cs
  | Call func args => Z.max (loop_depth func) (depth_list args)
  | Name _ ctx => Z.max (loop_depth ctx) 0
  | Attribute value _ ctx => Z.max (loop_depth value) (Z.max (loop_depth ctx) 0)
  | Import _ | ImportFrom _ _ _ | Alias _ => 0
  end.

(** The module of a [from ... import] is absent or empty. *)
Definition module_falsy (module : option string) : bool :=
  match module with
  | Some m => negb (truthy m)
  | None => true
  end.

(** ** The recommendation request: [get_openai_recommendations] *)

(** [str.isspace] on one character. *)
Definition isspace (c : char) : bool :=
  existsb (N.eqb c)
    [9; 10; 11; 12; 13; 28; 29; 30; 31; 32; 133; 160; 5760; 8232; 8233; 8239;
     8287; 12288]%N
  || ((8192 <=? c) && (c <=? 8202))%N.

(** [s.lstrip()], [s.rstrip()] and [s.strip()]. *)
Fixpoint lstrip (s : text) : text :=
  match s with
  | c :: s' => if isspace c then lstrip s' else s
  | [] => []
  end.

Definition rstrip (s : text) : text := rev (lstrip (rev s)).

Definition strip (s : text) : text := rstrip (lstrip s).

(** [p] is a prefix of [s]. *)
Fixpoint is_prefix (p s : text) : bool :=
  match p, s with
  | [], _ => true
  | a :: p', b :: s' => (a =? b)%N && is_prefix p' s'
  | _ :: _, [] => false
  end.

(** [s.replace(old, new)] for a non-empty [old]: the occurrences of [old]
    are replaced from left to right, without overlap.  [skip] counts the
    characters of an occurrence that are still to be passed over. *)
Fixpoint replace_from (skip : nat) (old new s : text) : text :=
  match s with
  | [] => []
  | c :: s' =>
      match skip with
      | S k => replace_from k old new s'
      | O =>
          if is_prefix old s
          then (new ++ replace_from (length old - 1) old new s')%list
          else c :: replace_from 0 old new s'
      end
  end.

Definition replace (old new s : text) : text := replace_from 0 old new s.

(** [sep.join(parts)]. *)
Fixpoint join (sep : text) (parts : list text) : text :=
  match parts with
  | [] => []
  | [p] => p
  | p :: rest => (p ++ sep ++ join sep rest)%list
  end.

(** [str(value)] for an integer. *)
Definition str_of_int (value : Z) : text :=
  str (DecimalString.NilZero.string_of_int (Z.to_int value)).

(** The exceptions the handlers of the function tell apart, each with the
    text [str(e)] of the exception. *)
Inductive exception : Type :=
| ImportError (e : text)
| KeyError (e : text)
| OtherException (e : text).

(** A chat message: its role and its content. *)
Definition message : Type := (string * text)%type.

(** [client.chat.completions.create(model=deployment_name,
    messages=prompt_messages, ...)]: the contents of the messages of the
    choices of the response ([None] for a message without content), or the
    exception raised. *)
Definition client : Type := text -> list message -> exception + list (option text).

(** What the function does to the outside. *)
Inductive ui_event : Type :=
| ui_error (msg : text)
| ui_info (msg : text)
| ui_write (msg : text)
| client_created (api_key azure_endpoint api_version : text)
| completion_requested (deployment_name : text) (messages : list message).

Definition credential_names : list string :=
  ["AZURE_OPENAI_API_KEY"; "AZURE_OPENAI_ENDPOINT"; "AZURE_OPENAI_API_VERSION";
   "AZURE_OPENAI_DEPLOYMENT_NAME"].

(** Truth value of a text: non-empty. *)
Definition nonempty (s : text) : bool :=
  match s with [] => false | _ :: _ => true end.

(** The lines of the prompt that list the features, from the items of the
    dictionary in their order. *)
Definition features_str (items : list (string * Z)) : text :=
  join [LF]
    (map (fun kv : string * Z =>
            (str "- " ++ replace (str "_") (str " ") (str kv.1) ++ str ": "
             ++ str_of_int kv.2)%list)
         items).

Definition system_content : text :=
  str "You are an expert Python programmer specialized in code optimization for energy efficiency. Analyze the provided code and its static features to suggest specific, actionable changes that would likely reduce its energy consumption during execution.".

Definition prompt_messages (source_code : text) (items : list (string * Z))
  : list message :=
  [("system", system_content);
   ("user",
    (str "Please analyze the following Python code for potential energy optimizations.

        Consider factors like:
        - Algorithmic efficiency (e.g., unnecessary computations, better data structures)
        - Loop optimizations (e.g., reducing iterations, vectorization)
        - I/O operations (e.g., batching, buffering, efficient file handling)
        - Library usage (e.g., choosing lighter alternatives if possible, efficient use of heavy libraries)
        - Concurrency/Parallelism (potential benefits or overhead)
        - Memory usage patterns

        Provide specific, actionable recommendations on how to modify the code to reduce energy consumption. Focus on practical changes and explain the reasoning. Structure recommendations clearly, perhaps using bullet points.

        Code Features:
        " ++ features_str items ++ str "

        Source Code:
        ```python
        " ++ source_code ++ str "
        Recommendations:

        Also give the percentage improvement in the Energy Efficiency after doing the recommended changes in the following format:
        Recommendation | Percentage Improvement
        Algorithmic Efficiency | 5-10%
        Loop Optimizations | 1-3%
        ")%list)].

(** The text of the [AttributeError] raised by [None.strip()]. *)
Definition none_strip_error : text :=
  str "'NoneType' object has no attribute 'strip'".

Section Recommendations.

(** [st.secrets], and the constructor of the client, which may raise. *)
Variable secrets : gmap string text.
Variable AzureOpenAI : text -> text -> text -> exception + client.

(** The handlers at the end of the function. *)
Definition handle (e : exception) : text * list ui_event :=
  match e with
  | ImportError _ =>
      (str "OpenAI library not found.",
       [ui_error (str "The 'openai' library is not installed. Please add it to requirements.txt and reinstall.")])
  | KeyError e =>
      ((str "Credential configuration missing: " ++ e)%list,
       [ui_error (str "Azure OpenAI credential '" ++ e
                  ++ str "' not found in Streamlit Secrets (secrets.toml).")%list])
  | OtherException e =>
      ((str "Error fetching recommendations: " ++ e)%list,
       [ui_error (str "Error calling Azure OpenAI API: " ++ e)%list])
  end.

(** The statements after the response has arrived. *)
Definition extract_response (choices : list (option text)) : exception + text :=
  match choices with
  | [] => inr (str "No recommendations received from API (response structure unexpected).")
  | None :: _ => inl (OtherException none_strip_error)
  | Some content :: _ =>
      let recommendations := strip content in
      if nonempty recommendations then inr recommendations
      else inr (str "AI model returned an empty recommendation.")
  end.

(** The text the function returns, with the events it caused, in order. *)
Definition get_openai_recommendations (source_code : text)
    (items : list (string * Z)) : text * list ui_event :=
  if negb (forallb (fun k => bool_decide (is_Some (secrets !! k))) credential_names)
  then
    (str "Credentials configuration missing.",
     [ui_error (str "Azure OpenAI credentials missing in Streamlit Secrets (secrets.toml).");
      ui_info (str "Please ensure AZURE_OPENAI_API_KEY, AZURE_OPENAI_ENDPOINT, AZURE_OPENAI_API_VERSION, AZURE_OPENAI_DEPLOYMENT_NAME are set in .streamlit/secrets.toml")])
  else
    let api_key := default [] (secrets !! "AZURE_OPENAI_API_KEY") in
    let azure_endpoint := default [] (secrets !! "AZURE_OPENAI_ENDPOINT") in
    let api_version := default [] (secrets !! "AZURE_OPENAI_API_VERSION") in
    let deployment_name := default [] (secrets !! "AZURE_OPENAI_DEPLOYMENT_NAME") in
    if negb (forallb nonempty [api_key; azure_endpoint; api_version; deployment_name])
    then
      (str "Credentials configuration incomplete.",
       [ui_error (str "One or more Azure OpenAI credentials in Streamlit Secrets are empty.")])
    else
      let created := client_created api_key azure_endpoint api_version in
      match AzureOpenAI api_key azure_endpoint api_version with
      | inl e => let (r, evs) := handle e in (r, created :: evs)
      | inr create =>
          let messages := prompt_messages source_code items in
          let before :=
            [created;
             ui_write (str "_Contacting Azure OpenAI... (This may take a moment)_");
             completion_requested deployment_name messages] in
          match create deployment_name messages with
          | inl e => let (r, evs) := handle e in (r, (before ++ evs)%list)
          | inr choices =>
              match extract_response choices with
              | inl e => let (r, evs) := handle e in (r, (before ++ evs)%list)
              | inr recommendations => (recommendations, before)
              end
          end
      end.

End Recommendations.

(** Sample credentials, a client that answers with one padded text, and
    the items of the record of the nested loops. *)
Definition sample_secrets : gmap string text :=
  list_to_map
    [("AZURE_OPENAI_API_KEY", str "key");
     ("AZURE_OPENAI_ENDPOINT", str "https://example.openai.azure.com");
     ("AZURE_OPENAI_API_VERSION", str "2024-02-01");
     ("AZURE_OPENAI_DEPLOYMENT_NAME", str "gpt")].

Definition sample_client : client :=
  fun _ _ => inr [Some (str "  Use a generator.
")].

Definition sample_AzureOpenAI : text -> text -> text -> exception + client :=
  fun _ _ _ => inr sample_client.

Definition items_nested_loops : list (string * Z) :=
  [("LOC", 3); ("No_of_Functions", 0); ("No_of_Classes", 0);
   ("No_of_Loops", 2); ("Loop_Nesting_Depth", 2);
   ("No_of_Conditional_Blocks", 0); ("Import_Score", 0); ("I/O Calls", 1)].

(** A request or a constructor call among the events. *)
Definition contacts_service (ev : ui_event) : bool :=
  match ev with
  | client_created _ _ _ | completion_requested _ _ => true
  | _ => false
  end.

(** ** The processing loop of the page *)

(** [os.path.basename] of a POSIX path: what follows the last slash. *)
Fixpoint basename (p : string) : string :=
  match p with
  | EmptyString => EmptyString
  | String c p' =>
      if contains "/" p' then basename p'
      else if Ascii.eqb c "/" then p' else p
  end.

(** [format(s, '<25')] and the like: padded with spaces on the right. *)
Definition ljust (width : nat) (s : text) : text :=
  (s ++ repeat 32%N (width - length s))%list.

(** The items of an extracted record in the order of its dictionary
    literal, which is the order of [FEATURES_ORDER]. *)
Definition record_items (f : gmap string Z) : list (string * Z) :=
  omap (fun key => (fun v => (key, v)) <$> f !! key) FEATURES_ORDER.

(** The text shown for the features of a file. *)
Definition output_str (items : list (string * Z)) : text :=
  join [LF]
    (map (fun kv : string * Z =>
            ([32; 32; 8226; 32]%N
             ++ ljust 25 (replace (str "_") (str " ") (str kv.1))
             ++ str " : " ++ str_of_int kv.2)%list)
         items).

(** What appears on the page while the files are processed. *)
Inductive page_event {numeric : Type} : Type :=
| st_subheader (t : text)
| st_write (t : text)
| st_code (t : text)
| st_success (t : text)
| st_markdown (t : text)
| st_warning (t : text)
| st_divider
| from_extract (msg : text)
| from_predict (ev : @event numeric)
| from_recommendations (ev : ui_event).
Arguments page_event : clear implicits.

(** A run of the loop: what was shown, the count of successes, and the
    exception that ended the run, if one did. *)
Record run {numeric : Type} : Type := {
  shown : list (page_event numeric);
  overall_success_count : Z;
  raised : option exn
}.
Arguments run : clear implicits.

Section Page.

Context {numeric output : Type}.
Variable read_file : string -> option text.
Variable ast_parse : text -> option node.
Variable to_numeric : Z -> option numeric.
Variable predict : @model numeric output.
Variable secrets : gmap string text.
Variable AzureOpenAI : text -> text -> text -> exception + client.

(** The path shown for a file, computed with [os.path] from the file and
    the base path, and [format(prediction, '.2f')]. *)
Variable display_path : string -> text.
Variable format_2f : output -> text.

(** The error shown by the handler of extraction that ran, by the result
    the function returned. *)
Definition extract_reports (file_path : string)
    (r : option (gmap string Z) * option text) : list (page_event numeric) :=
  match r with
  | (None, None) =>
      [from_extract (str "Could not read file: " ++ str (basename file_path))%list]
  | (None, Some _) =>
      [from_extract (str "Could not parse file (invalid Python?): "
                     ++ str (basename file_path))%list]
  | _ => []
  end.

(** [if features_dict and source_code]: a non-empty dictionary and a
    non-empty text. *)
Definition record_and_source (r : option (gmap string Z) * option text)
  : option (gmap string Z * text) :=
  match r with
  | (Some f, Some source_code) =>
      if negb (bool_decide (f = ∅)) && nonempty source_code
      then Some (f, source_code) else None
  | _ => None
  end.

(** One iteration of [for file_path in files_to_process]. *)
Definition process_file (file_path : string) (count : Z) : run numeric :=
  let head := [st_subheader (str "Results for: " ++ display_path file_path)%list] in
  match extract_features_and_code_from_file read_file ast_parse file_path with
  | Raised e =>
      {| shown := head; overall_success_count := count; raised := Some e |}
  | Returned r =>
      let head := (head ++ extract_reports file_path r)%list in
      match record_and_source r with
      | None =>
          {| shown := (head ++ [st_divider])%list;
             overall_success_count := count; raised := None |}
      | Some (features_dict, source_code) =>
          let items := record_items features_dict in
          let features :=
            [st_write ([128269%N] ++ str " **Extracted Features:**")%list;
             st_code (output_str items)] in
          let (prediction, events) :=
            predict_for_features to_numeric predict features_dict in
          match prediction with
          | None =>
              {| shown := (head ++ features ++ map from_predict events
                           ++ [st_divider])%list;
                 overall_success_count := count; raised := None |}
          | Some y =>
              let (recommendations, requests) :=
                get_openai_recommendations secrets AzureOpenAI source_code items in
              {| shown :=
                   (head ++ features ++ map from_predict events
                    ++ [st_success (str "**Predicted Energy: " ++ format_2f y
                                    ++ str " joules**")%list;
                        st_write ([128161%N]
                                  ++ str " **Fetching Energy Saving Recommendations...**")%list]
                    ++ map from_recommendations requests
                    ++ [st_markdown (str "**Recommendations:**");
                        st_markdown recommendations;
                        st_divider])%list;
                 overall_success_count := count + 1; raised := None |}
          end
      end
  end.

(** The loop: an exception ends it. *)
Fixpoint process_files (files_to_process : list string) (count : Z) : run numeric :=
  match files_to_process with
  | [] => {| shown := []; overall_success_count := count; raised := None |}
  | file_path :: rest =>
      let r := process_file file_path count in
      match raised r with
      | Some _ => r
      | None =>
          let r' := process_files rest (overall_success_count r) in
          {| shown := (shown r ++ shown r')%list;
             overall_success_count := overall_success_count r';
             raised := raised r' |}
      end
  end.

(** The part of the page under the header "Results". *)
Definition show_results (files_to_process : list string) : run numeric :=
  match files_to_process with
  | [] =>
      {| shown := [st_warning (str "No Python files found to process.")];
         overall_success_count := 0; raised := None |}
  | _ => process_files files_to_process 0
  end.

End Page.

Definition is_divider {numeric : Type} (ev : page_event numeric) : bool :=
  match ev with st_divider => true | _ => false end.

Definition is_success {numeric : Type} (ev : page_event numeric) : bool :=
  match ev with st_success _ => true | _ => false end.

Definition is_recommendation {numeric : Type} (ev : page_event numeric) : bool :=
  match ev with st_markdown _ | from_recommendations _ => true | _ => false end.

Definition is_subheader {numeric : Type} (ev : page_event numeric) : bool :=
  match ev with st_subheader _ => true | _ => false end.

(** Number of events of a kind. *)
Definition count_events {A : Type} (kind : A -> bool) (l : list A) : nat :=
  length (List.filter kind l).

(** A second file, with two loops, for runs over several files. *)
Definition sample_read_file : string -> option text :=
  fun p =>
    if String.eqb p "pkg/mod.py" then Some source_relative_import
    else if String.eqb p "nested.py" then Some source_nested_loops
    else if String.eqb p "empty.py" then Some []
    else None.

Definition sample_ast_parse : text -> option node :=
  fun s =>
    if bool_decide (s = source_relative_import) then Some tree_relative_import
    else if bool_decide (s = source_nested_loops) then Some tree_nested_loops
    else if bool_decide (s = []) then Some (Module [])
    else None.

Definition sample_display_path : string -> text := fun p => str (basename p).

Definition sample_format_2f : Z -> text := fun y => (str_of_int y ++ str ".00")%list.

(** The record extraction returns for an empty module. *)
Definition features_empty : gmap string Z :=
  list_to_map
    [("LOC", 0); ("No_of_Functions", 0); ("No_of_Classes", 0);
     ("No_of_Loops", 0); ("Loop_Nesting_Depth", 0);
     ("No_of_Conditional_Blocks", 0); ("Import_Score", 0); ("I/O Calls", 0)].

(** The sample page: the sample files, model, credentials and service. *)
Definition sample_process_files : list string -> Z -> run Z :=
  process_files sample_read_file sample_ast_parse Some sample_model
    sample_secrets sample_AzureOpenAI sample_display_path sample_format_2f.

(** ** Finding the Python files of a directory *)

(** [s.endswith(suffix)]: [s] is [suffix], or its tail ends with it. *)
Fixpoint endswith (s suffix : string) : bool :=
  String.eqb s suffix ||
  match s with
  | EmptyString => false
  | String _ s' => endswith s' suffix
  end.

(** [os.path.join(a, b)] for POSIX paths. *)
Definition path_join (a b : string) : string :=
  match b with
  | String "/" _ => b
  | _ => if negb (truthy a) || endswith a "/" then a ++ b else a ++ "/" ++ b
  end.

(** A directory: its subdirectories, by name, and the names of its files,
    both in the order in which [os.walk] lists them.  There are no
    symbolic links and no unreadable directories. *)
Inductive directory : Type :=
| Directory (dirs : list (string * directory)) (files : list string).

Definition excluded_dirs : list string :=
  ["venv"; ".venv"; "env"; ".env"; "__pycache__"; ".git"].

(** The loop over [os.walk(root)] that both branches of the page run: the
    excluded names are removed from [dirs], so that the walk does not
    descend into them, and the files that end in [.py] are appended, joined
    to the directory; the walk is top-down. *)
Fixpoint find_python_files (root : string) (d : directory) : list string :=
  match d with
  | Directory dirs files =>
      let here :=
        map (path_join root)
            (List.filter (fun file => endswith file ".py") files) in
      let below :=
        (fix below (l : list (string * directory)) : list string :=
           match l with
           | [] => []
           | (name, sub) :: l' =>
               ((if bool_decide (name ∈ excluded_dirs) then []
                 else find_python_files (path_join root name) sub)
                ++ below l')%list
           end) dirs in
      (here ++ below)%list
  end.

(** [d'] lies below [d] along the directory names [names]. *)
Inductive descends : directory -> list string -> directory -> Prop :=
| descends_here d : descends d [] d
| descends_into dirs files name sub names d' :
    In (name, sub) dirs ->
    descends sub names d' ->
    descends (Directory dirs files) (name :: names) d'.

Definition files_of (d : directory) : list string :=
  match d with Directory _ files => files end.

Definition dirs_of (d : directory) : list (string * directory) :=
  match d with Directory dirs _ => dirs end.

(** A project with a virtual environment and a package. *)
Definition sample_project : directory :=
  Directory
    [("venv", Directory [("lib", Directory [] ["site.py"])] ["activate"]);
     ("src", Directory [("__pycache__", Directory [] ["app.cpython-311.pyc"])]
               ["app.py"; "data.json"; "venv.py"])]
    ["setup.py"; "README.md"].

(** ** The GitHub address: the pattern, its groups and the download *)

(** A set of characters of a pattern: one character, every character but
    one ([[^c]]), or every character but a line feed ([.]). *)
Inductive char_class : Type :=
| OneChar (c : char)
| NotChar (c : char)
| AnyChar.

Definition in_class (cls : char_class) (c : char) : bool :=
  match cls with
  | OneChar a => (c =? a)%N
  | NotChar a => negb (c =? a)%N
  | AnyChar => negb (c =? LF)%N
  end.

(** The patterns of [re] that the address pattern is built from.  The
    repetitions are the greedy [*] and [+] of a character set; [Optional]
    is the greedy [?]; [Group i] is the [i]-th capturing group. *)
Inductive regex : Type :=
| Empty
| Chars (cls : char_class)
| Seq (r1 r2 : regex)
| Optional (r : regex)
| Many (cls : char_class)
| Many1 (cls : char_class)
| Group (i : nat) (r : regex).

(** The texts of the groups that took part in the match. *)
Abbreviation captures := (gmap nat text).

(** A greedy repetition of a character set with backtracking: as many
    characters as possible, then one less, and so on, until the rest of
    the pattern, [k], matches. *)
Fixpoint many {R : Type} (cls : char_class) (s : text) (k : text -> option R)
  : option R :=
  match s with
  | c :: s' =>
      if in_class cls c
      then match many cls s' k with
           | Some r => Some r
           | None => k s
           end
      else k s
  | [] => k []
  end.

(** Backtracking matching of a pattern at the start of [s]; [k] is the rest
    of the pattern, applied to what is left of the text and to the groups
    so far.  The first alternative that lets the whole pattern match is
    taken. *)
Fixpoint match_regex (r : regex) (s : text) (caps : captures)
    (k : text -> captures -> option captures) : option captures :=
  match r with
  | Empty => k s caps
  | Chars cls =>
      match s with
      | c :: s' => if in_class cls c then k s' caps else None
      | [] => None
      end
  | Seq r1 r2 =>
      match_regex r1 s caps (fun s' caps' => match_regex r2 s' caps' k)
  | Optional r1 =>
      match match_regex r1 s caps k with
      | Some m => Some m
      | None => k s caps
      end
  | Many cls => many cls s (fun s' => k s' caps)
  | Many1 cls =>
      match s with
      | c :: s' => if in_class cls c then many cls s' (fun s'' => k s'' caps) else None
      | [] => None
      end
  | Group i r1 =>
      match_regex r1 s caps
        (fun s' caps' => k s' (<[i := take (length s - length s') s]> caps'))
  end.

(** [re.match(pattern, s)]: the pattern has to match at the start of [s];
    what follows the match is free. *)
Definition re_match (pattern : regex) (s : text) : option captures :=
  match_regex pattern s ∅ (fun _ caps => Some caps).

(** The pattern of the characters of a literal text. *)
Fixpoint literal (w : string) : regex :=
  match w with
  | EmptyString => Empty
  | String c w' => Seq (Chars (OneChar (N.of_nat (nat_of_ascii c)))) (literal w')
  end.

Definition slash : char := 47%N.

(** The optional end of the pattern: the text /tree/, group 3 (one or more
    characters other than a slash) and, optionally, group 4: a slash and
    group 5, every character up to a line feed. *)
Definition tree_pattern : regex :=
  Seq (literal "/tree/")
      (Seq (Group 3 (Many1 (NotChar slash)))
           (Optional (Group 4 (Seq (Chars (OneChar slash)) (Group 5 (Many AnyChar)))))).

(** Group 1 and group 2, each one or more characters other than a slash,
    with a slash between them, and the optional end. *)
Definition repository_pattern : regex :=
  Seq (Group 1 (Many1 (NotChar slash)))
      (Seq (Chars (OneChar slash))
           (Seq (Group 2 (Many1 (NotChar slash)))
                (Optional tree_pattern))).

(** The pattern of the page: the text http, an optional s, the text
    ://github.com/ and the groups. *)
Definition github_url_pattern : regex :=
  Seq (literal "http")
      (Seq (Optional (Chars (OneChar 115%N)))
           (Seq (literal "://github.com/") repository_pattern)).

(** [sub in s]. *)
Fixpoint occurs (sub s : text) : bool :=
  is_prefix sub s ||
  match s with
  | [] => false
  | _ :: s' => occurs sub s'
  end.

(** The test that sends the input to the GitHub branch of the page. *)
Definition is_github_url (input_path_or_url : text) : bool :=
  (is_prefix (str "http://") input_path_or_url
   || is_prefix (str "https://") input_path_or_url)
  && occurs (str "github.com") input_path_or_url.

(** [s.strip('/')]. *)
Fixpoint lstrip_slashes (s : text) : text :=
  match s with
  | c :: s' => if (c =? slash)%N then lstrip_slashes s' else s
  | [] => []
  end.

Definition strip_slashes (s : text) : text :=
  rev (lstrip_slashes (rev (lstrip_slashes s))).

(** What the page derives from the address. *)
Record github_source : Type := {
  repo_url_base : text;
  target_subdir_in_repo : option text;
  potential_branches : list text
}.

(** The statements from [re.match] to [potential_branches]; [None] when
    the pattern does not match and the page stops. *)
Definition parse_github_url (input_path_or_url : text) : option github_source :=
  match re_match github_url_pattern input_path_or_url with
  | None => None
  | Some caps =>
      let user := default [] (caps !! 1%nat) in
      let repo := default [] (caps !! 2%nat) in
      let branch := caps !! 3%nat in
      let subdir := caps !! 5%nat in
      let repo := replace (str ".git") [] repo in
      Some
        {| repo_url_base := (str "https://github.com/" ++ user ++ [slash] ++ repo)%list;
           target_subdir_in_repo :=
             match subdir with
             | Some subdir => if nonempty subdir then Some (strip_slashes subdir) else None
             | None => None
             end;
           potential_branches :=
             match branch with
             | Some branch => if nonempty branch then [branch] else [str "main"; str "master"]
             | None => [str "main"; str "master"]
             end |}
  end.

(** The address of the archive of a branch. *)
Definition potential_zip_url (repo_url_base b : text) : text :=
  (repo_url_base ++ str "/archive/refs/heads/" ++ b ++ str ".zip")%list.

(** The download loop: the branches are tried in order until one download
    succeeds.  [get] is [requests.get] followed by [raise_for_status] and
    [content]: the content, or the text of the exception.  The result is
    [repo_zip_content] with the addresses requested, in order. *)
Fixpoint download_zip (get : text -> text + text) (repo_url_base : text)
    (branches : list text) : option text * list text :=
  match branches with
  | [] => (None, [])
  | b :: rest =>
      let url := potential_zip_url repo_url_base b in
      match get url with
      | inr content => (Some content, [url])
      | inl _ =>
          let (repo_zip_content, requested) := download_zip get repo_url_base rest in
          (repo_zip_content, url :: requested)
      end
  end.

(** The text is empty or starts with a slash: a run of characters other
    than a slash cannot be continued into it. *)
Definition stops_at_slash (s : text) : bool :=
  match s with
  | [] => true
  | c :: _ => (c =? slash)%N
  end.

Definition scheme (secure : bool) : text :=
  if secure then str "https" else str "http".

(** The archive addresses of a list of branches. *)
Definition zip_urls (repo_url_base : text) (branches : list text) : list text :=
  map (potential_zip_url repo_url_base) branches.

(** A server that has an archive for one branch only. *)
Definition sample_get (branch : text) : text -> text + text :=
  fun url =>
    if bool_decide (url = potential_zip_url (str "https://github.com/u/r") branch)
    then inr (str "PK") else inl (str "404 Client Error").

Definition dot : char := 46%N.

(** From the address to the download: the page stops ([None]) when the
    pattern does not match, and otherwise runs the download loop on the
    base address and the branches it has derived. *)
Definition github_download (get : text -> text + text) (input_path_or_url : text)
  : option (option text * list text) :=
  match parse_github_url input_path_or_url with
  | None => None
  | Some source =>
      Some (download_zip get (repo_url_base source) (potential_branches source))
  end.

(** ** Line boundaries and newlines *)

(** The line boundaries that the documentation of [str.splitlines] lists,
    by code point: the line feed, the vertical tab, the form feed and the
    carriage return (10 to 13), the file, group and record separators
    (28 to 30), the next-line character (133), and the line and paragraph
    separators (8232 and 8233). *)
Definition is_line_boundary (c : char) : bool :=
  ((10 <=? c) && (c <=? 13) || (28 <=? c) && (c <=? 30) || (c =? 133)
   || (c =? 8232) || (c =? 8233))%N.

(** The number of line boundaries of a text, a carriage return directly
    followed by a line feed being one boundary. *)
Fixpoint count_line_boundaries (s : text) : nat :=
  match s with
  | [] => O
  | c :: rest =>
      if is_line_boundary c then
        match rest with
        | c' :: rest' =>
            if (c =? CR)%N && (c' =? LF)%N
            then S (count_line_boundaries rest')
            else S (count_line_boundaries rest)
        | [] => 1%nat
        end
      else count_line_boundaries rest
  end.

Definition ends_with_line_boundary (s : text) : bool :=
  match last s with
  | Some c => is_line_boundary c
  | None => false
  end.

(** The number of newlines of a text. *)
Definition count_newlines (s : text) : nat :=
  length (List.filter (N.eqb LF) s).

Definition ends_with_newline (s : text) : bool :=
  match last s with
  | Some c => (c =? LF)%N
  | None => false
  end.

(** A split of a text at its newlines: the pieces between them. *)
Fixpoint split_on_newline_from (cur : text) (s : text) : list text :=
  match s with
  | [] => [rev cur]
  | c :: rest =>
      if (c =? LF)%N then rev cur :: split_on_newline_from [] rest
      else split_on_newline_from (c :: cur) rest
  end.

Definition split_on_newline (s : text) : list text := split_on_newline_from [] s.

(** A comment with a form feed in it, followed by an assignment on the
    next line, with the tree [ast.parse] builds for this text and the
    record extraction returns. *)
Definition source_form_feed : text :=
  (str "# a" ++ [12%N] ++ str "b
x = 1")%list.

Definition tree_form_feed : node :=
  Module [Other "Assign" [Name "x" Store; Constant]].

Definition features_form_feed : gmap string Z :=
  list_to_map
    [("LOC", 3); ("No_of_Functions", 0); ("No_of_Classes", 0);
     ("No_of_Loops", 0); ("Loop_Nesting_Depth", 0);
     ("No_of_Conditional_Blocks", 0); ("Import_Score", 0); ("I/O Calls", 0)].

(** ** Tactics *)

(** Looks a label up in a dictionary given by its items. *)
Ltac lookup_field :=
  cbn [list_to_map foldr uncurry fst snd];
  repeat (rewrite lookup_insert_ne by discriminate);
  first [apply lookup_insert_eq | apply lookup_empty].

(** Looks the groups of a match up. *)
Ltac lookup_groups :=
  repeat first
    [ rewrite lookup_insert_eq
    | rewrite lookup_insert_ne by discriminate
    | rewrite lookup_empty ].

(** ** Basic facts about trees and [ast.walk] *)

Lemma node_children_ind (P : node -> Prop) :
  (forall n, Forall P (iter_child_nodes n) -> P n) -> forall n, P n.
Proof.
  intros H. fix IH 1. intros n. apply H.
  destruct n as [cs|? cs|? cs|cs|cs|cs|names|? names ?|f args|? ctx|v ? ctx|a|? cs];
    simpl.
  all: try (induction cs as [|c cs IHcs]; constructor; [apply IH | exact IHcs]).
  - induction names as [|a names IHn]; constructor; [|exact IHn].
    apply H. constructor.
  - induction names as [|a names IHn]; constructor; [|exact IHn].
    apply H. constructor.
  - constructor; [apply IH|].
    induction args as [|c cs IHcs]; constructor; [apply IH | exact IHcs].
  - constructor; [apply IH | constructor].
  - constructor; [apply IH | constructor; [apply IH | constructor]].
  - constructor.
Qed.

Lemma size_eq n : size n = S (total_size (iter_child_nodes n)).
Proof.
  unfold total_size.
  destruct n as [cs|? cs|? cs|cs|cs|cs|names|? names ?|f args|? ctx|v ? ctx|a|? cs];
    simpl; f_equal.
  all: try (induction cs as [|c cs IHcs]; simpl; [reflexivity | now rewrite IHcs]).
  all: try (induction names as [|a names IHn]; simpl; [reflexivity | now rewrite <- IHn]).
  all: try lia.
  f_equal. induction args as [|c cs IHcs]; simpl; [reflexivity | now rewrite IHcs].
Qed.

Lemma preorder_eq n : preorder n = n :: flat_map preorder (iter_child_nodes n).
Proof.
  destruct n as [cs|? cs|? cs|cs|cs|cs|names|? names ?|f args|? ctx|v ? ctx|a|? cs];
    simpl; f_equal.
  all: try (induction cs as [|c cs IHcs]; simpl; [reflexivity | now rewrite IHcs]).
  all: try (induction names as [|a names IHn]; simpl; [reflexivity | now rewrite <- IHn]).
  all: try now rewrite app_nil_r.

Qed.

Lemma total_size_app l1 l2 :
  total_size (l1 ++ l2)%list = (total_size l1 + total_size l2)%nat.
Proof. unfold total_size. now rewrite map_app, list_sum_app. Qed.

(** With enough fuel the queue is emptied: the walk yields every node of
    every queued tree, each once. *)
Lemma walk_queue_Permutation fuel : forall todo,
  (total_size todo <= fuel)%nat ->
  Permutation (walk_queue fuel todo) (flat_map preorder todo).
Proof.
  induction fuel as [|fuel IH]; intros todo Hsz.
  - destruct todo as [|n rest]; [constructor|].
    exfalso. unfold total_size in Hsz. simpl in Hsz.
    rewrite size_eq in Hsz. lia.
  - destruct todo as [|n rest]; [constructor|].
    cbn [walk_queue flat_map]. rewrite (preorder_eq n). cbn [app].
    constructor.
    rewrite IH.
    + rewrite flat_map_app. apply Permutation_app_comm.
    + rewrite total_size_app. unfold total_size in *. simpl in Hsz.
      rewrite (size_eq n) in Hsz. unfold total_size in Hsz. lia.
Qed.

Lemma walk_Permutation tree : Permutation (walk tree) (preorder tree).
Proof.
  unfold walk. rewrite walk_queue_Permutation.
  - simpl. now rewrite app_nil_r.
  - unfold total_size. simpl. lia.
Qed.

Lemma walk_head tree : exists rest, walk tree = tree :: rest.
Proof. unfold walk. rewrite size_eq. simpl. eauto. Qed.

(** ** Sums and counts *)

Lemma fold_left_add_acc l : forall a, fold_left Z.add l a = a + py_sum l.
Proof.
  unfold py_sum. induction l as [|x l IH]; intros a; simpl; [lia|].
  rewrite (IH (a + x)), (IH (0 + x)). lia.
Qed.

Lemma py_sum_cons a l : py_sum (a :: l) = a + py_sum l.
Proof. unfold py_sum at 1. simpl. apply fold_left_add_acc. Qed.

Lemma py_sum_app l1 l2 : py_sum (l1 ++ l2)%list = py_sum l1 + py_sum l2.
Proof.
  induction l1 as [|a l1 IH]; simpl; [reflexivity|].
  rewrite !py_sum_cons, IH. lia.
Qed.

Lemma py_sum_Permutation l1 l2 : Permutation l1 l2 -> py_sum l1 = py_sum l2.
Proof.
  induction 1; rewrite ?py_sum_cons; lia.
Qed.

Lemma py_sum_nonneg l : Forall (fun x => 0 <= x) l -> 0 <= py_sum l.
Proof.
  induction 1; [reflexivity|]. rewrite py_sum_cons. lia.
Qed.

(** Number of nodes of a list that satisfy a test, as the program sums it. *)
Lemma count_nonneg (f : node -> bool) l : 0 <= py_sum (map (fun n => Z.b2z (f n)) l).
Proof.
  apply py_sum_nonneg. induction l as [|n l IH]; constructor; [|exact IH].
  destruct (f n); simpl; lia.
Qed.

Lemma count_instances_preorder f tree :
  count_instances f tree = count_in f (preorder tree).
Proof.
  unfold count_instances, count_in. apply py_sum_Permutation, Permutation_map, walk_Permutation.
Qed.

Lemma count_in_app f l1 l2 : count_in f (l1 ++ l2)%list = count_in f l1 + count_in f l2.
Proof. unfold count_in. now rewrite map_app, py_sum_app. Qed.

Lemma count_in_cons f n l : count_in f (n :: l) = Z.b2z (f n) + count_in f l.
Proof. unfold count_in. simpl. apply py_sum_cons. Qed.

Lemma count_in_preorder f n :
  count_in f (preorder n) = Z.b2z (f n) + count_in f (flat_map preorder (iter_child_nodes n)).
Proof. now rewrite preorder_eq, count_in_cons. Qed.

Lemma count_in_zero f l : Forall (fun n => f n = false) l -> count_in f l = 0.
Proof.
  induction 1 as [|n l Hn _ IH]; [reflexivity|].
  rewrite count_in_cons, Hn, IH. reflexivity.
Qed.

(** ** The syntax walker *)

Lemma visit_eq n self :
  visit n self =
  match n with
  | For _ | While _ =>
      leave_loop (visit_children (iter_child_nodes n) (enter_loop self))
  | Call func _ => visit_children (iter_child_nodes n) (count_call func self)
  | _ => visit_children (iter_child_nodes n) self
  end.
Proof.
  unfold visit_children.
  destruct n as [cs|? cs|? cs|cs|cs|cs|names|? names ?|f args|? ctx|v ? ctx|a|? cs];
    simpl; try reflexivity.
  all: try (f_equal; generalize (enter_loop self)).
  all: try (revert self).
  all: try (induction cs as [|c cs IHcs]; intros self; simpl; [reflexivity | apply IHcs]).
  all: try (induction names as [|a names IHn]; intros self; simpl; [reflexivity | apply IHn]).
Qed.

Lemma visit_children_cons c cs self :
  visit_children (c :: cs) self = visit_children cs (visit c self).
Proof. reflexivity. Qed.

Lemma visit_children_effect cs :
  Forall (fun c => forall self, visit_effect (preorder c) self (visit c self)) cs ->
  forall self,
    visit_effect (flat_map preorder cs) self (visit_children cs self).
Proof.
  induction 1 as [|c cs Hc _ IH]; intros self.
  - unfold visit_effect, count_in, visit_children, py_sum. simpl. lia.
  - rewrite visit_children_cons. cbn [flat_map].
    destruct (Hc self) as (Hc1 & Hc2 & Hc3 & Hc4).
    destruct (IH (visit c self)) as (H1 & H2 & H3 & H4).
    unfold visit_effect. rewrite !count_in_app.
    pose proof (count_nonneg is_loop (preorder c)) as P1.
    pose proof (count_nonneg is_loop (flat_map preorder cs)) as P2.
    fold (count_in is_loop (preorder c)) in P1.
    fold (count_in is_loop (flat_map preorder cs)) in P2.
    repeat split; lia.
Qed.

Lemma visit_effect_preorder n self : visit_effect (preorder n) self (visit n self).
Proof.
  revert self. induction n as [n IH] using node_children_ind. intros self.
  pose proof (visit_children_effect _ IH) as Hcs.
  rewrite visit_eq. unfold visit_effect.
  rewrite !count_in_preorder.
  pose proof (count_nonneg is_loop (flat_map preorder (iter_child_nodes n))) as P.
  fold (count_in is_loop (flat_map preorder (iter_child_nodes n))) in P.
  destruct n; cbn [is_loop is_io_call Z.b2z].
  all: try (destruct (Hcs self) as (H1 & H2 & H3 & H4); repeat split; lia).
  - destruct (Hcs (enter_loop self)) as (H1 & H2 & H3 & H4).
    unfold leave_loop, enter_loop in *; simpl in *. repeat split; lia.
  - destruct (Hcs (enter_loop self)) as (H1 & H2 & H3 & H4).
    unfold leave_loop, enter_loop in *; simpl in *. repeat split; lia.
  - destruct (Hcs (count_call n self)) as (H1 & H2 & H3 & H4).
    unfold count_call in *.
    destruct (in_file_io_funcs (func_name n)); simpl in *; repeat split; lia.
Qed.

(** ** Strings *)

Lemma split_nonempty sep s : split sep s <> [].
Proof.
  destruct s as [|c s]; simpl; [discriminate|].
  destruct (Ascii.eqb c sep); [discriminate|].
  destruct (split sep s); discriminate.
Qed.

Lemma first_segment_String c s :
  first_segment (String c s) =
  if Ascii.eqb c "." then EmptyString else String c (first_segment s).
Proof.
  unfold first_segment. simpl.
  destruct (Ascii.eqb c "."); [reflexivity|].
  pose proof (split_nonempty "." s) as Hne.
  destruct (split "." s); [contradiction | reflexivity].
Qed.

Lemma first_segment_no_dot s : contains "." (first_segment s) = false.
Proof.
  induction s as [|c s IH]; [reflexivity|].
  rewrite first_segment_String.
  destruct (Ascii.eqb c ".") eqn:E; [reflexivity|].
  simpl. now rewrite E, IH.
Qed.

Lemma first_segment_forallb f s :
  string_forallb f s = true -> string_forallb f (first_segment s) = true.
Proof.
  induction s as [|c s IH]; [reflexivity|].
  rewrite first_segment_String. simpl. intros [Hc Hs]%andb_prop.
  destruct (Ascii.eqb c "."); [reflexivity|].
  simpl. now rewrite Hc, IH.
Qed.

Lemma first_segment_prefix l rest :
  contains "." l = false -> first_segment (l ++ String "." rest) = l.
Proof.
  induction l as [|c l IH]; intros Hl.
  - reflexivity.
  - simpl in Hl. apply orb_false_elim in Hl as [Hc Hl].
    change (String c l ++ String "." rest) with (String c (l ++ String "." rest)).
    rewrite first_segment_String, Hc, IH; auto.
Qed.

Lemma first_segment_id l : contains "." l = false -> first_segment l = l.
Proof.
  induction l as [|c l IH]; intros Hl; [reflexivity|].
  simpl in Hl. apply orb_false_elim in Hl as [Hc Hl].
  rewrite first_segment_String, Hc, IH; auto.
Qed.

(** ** The import weight table *)

Lemma library_weights_items_positive :
  Forall (fun kv : string * Z => 1 <= kv.2) library_weights_items.
Proof. unfold library_weights_items. repeat (constructor; [simpl; lia|]). constructor. Qed.

Lemma weight_positive l : 1 <= weight l.
Proof.
  unfold weight. destruct (library_weights !! l) as [w|] eqn:E; simpl; [|lia].
  apply elem_of_list_to_map_2 in E.
  pose proof library_weights_items_positive as HF.
  rewrite Forall_forall in HF. apply (HF _ E).
Qed.

Lemma weighted_import_score_nonneg libs : 0 <= weighted_import_score libs.
Proof.
  unfold weighted_import_score. apply py_sum_nonneg.
  induction (elements libs) as [|l ls IH]; constructor; [|exact IH].
  pose proof (weight_positive l). lia.
Qed.

(** ** The import loop *)

Lemma import_alias_fold names : forall st,
  lib_recorded st ->
  lib_recorded (fold_left import_alias names st) /\
  imported_libs (fold_left import_alias names st) =
    imported_libs st ∪
    list_to_set (filter (fun l => truthy l = true)
                   (map (fun a => first_segment (alias_name a)) names)).
Proof.
  induction names as [|a names IH]; intros st Hst.
  - simpl. split; [exact Hst | set_solver].
  - cbn [fold_left map].
    assert (Ha : lib_recorded (import_alias st a)).
    { intros l Hl Ht. unfold import_alias in *. simpl in *.
      injection Hl as <-. rewrite Ht. set_solver. }
    destruct (IH _ Ha) as [H1 H2]. split; [exact H1|].
    rewrite H2. unfold import_alias at 1. cbn [imported_libs].
    rewrite filter_cons.
    destruct (truthy (first_segment (alias_name a))) eqn:E.
    + rewrite decide_True by reflexivity. set_solver.
    + rewrite decide_False by discriminate. set_solver.
Qed.

Lemma import_step_spec st n st' :
  import_step st n = Returned st' ->
  lib_recorded st ->
  lib_recorded st' /\
  imported_libs st' = imported_libs st ∪ list_to_set (top_level_names n).
Proof.
  intros Hstep Hst.
  destruct n; simpl in Hstep;
    try (injection Hstep as <-; split; [exact Hst | simpl; set_solver]).
  - injection Hstep as <-. apply import_alias_fold, Hst.
  - unfold import_from in Hstep. cbn [top_level_names].
    destruct module as [m|].
    + destruct (truthy m) eqn:Em; cbn [andb].
      * injection Hstep as <-. cbn [imported_libs lib].
        destruct (truthy (first_segment m)) eqn:El.
        -- split; [|set_solver].
           intros l Hl _. simpl in Hl. injection Hl as <-. set_solver.
        -- split; [|set_solver].
           intros l Hl Ht. simpl in Hl. injection Hl as <-. congruence.
      * destruct (lib st) as [l|] eqn:El; [|discriminate].
        injection Hstep as <-. cbn [imported_libs lib].
        destruct (truthy l) eqn:Et.
        -- pose proof (Hst l El Et). split; [|set_solver].
           intros l' Hl' _. simpl in Hl'. injection Hl' as <-. set_solver.
        -- split; [|set_solver].
           intros l' Hl' Ht. simpl in Hl'. injection Hl' as <-. congruence.
    + destruct (lib st) as [l|] eqn:El; [|discriminate].
      injection Hstep as <-. cbn [imported_libs lib].
      destruct (truthy l) eqn:Et.
      * pose proof (Hst l El Et). split; [|set_solver].
        intros l' Hl' _. simpl in Hl'. injection Hl' as <-. set_solver.
      * split; [|set_solver].
        intros l' Hl' Ht. simpl in Hl'. injection Hl' as <-. congruence.
Qed.

Lemma import_loop_spec nodes : forall st st',
  import_loop nodes st = Returned st' ->
  lib_recorded st ->
  lib_recorded st' /\
  imported_libs st' =
    imported_libs st ∪ list_to_set (flat_map top_level_names nodes).
Proof.
  induction nodes as [|n nodes IH]; intros st st' Hloop Hst.
  - injection Hloop as <-. split; [exact Hst | simpl; set_solver].
  - cbn [import_loop] in Hloop.
    destruct (import_step st n) as [st1|e] eqn:E1; [|discriminate].
    cbn in Hloop.
    destruct (import_step_spec _ _ _ E1 Hst) as [Hr1 Hl1].
    destruct (IH _ _ Hloop Hr1) as [Hr2 Hl2].
    split; [exact Hr2|]. rewrite Hl2, Hl1. cbn [flat_map].
    rewrite list_to_set_app_L. set_solver.
Qed.

Lemma import_locals_init_recorded : lib_recorded import_locals_init.
Proof. intros l Hl. discriminate. Qed.

(** The loop raises when it reaches a [from ... import] without module
    before any statement has bound [lib]. *)
Lemma import_loop_unbound_raises pre names level post st :
  lib st = None ->
  forallb leaves_lib_unbound pre = true ->
  import_loop (pre ++ ImportFrom None names level :: post)%list st =
    Raised (UnboundLocalError "lib").
Proof.
  revert st. induction pre as [|n pre IH]; intros st Hst Hpre.
  - cbn. unfold import_from. rewrite Hst. reflexivity.
  - cbn [forallb] in Hpre. apply andb_prop in Hpre as [Hn Hpre].
    cbn [app import_loop].
    assert (E : import_step st n = Returned st).
    { destruct n as [| | | | | |[|a names']| | | | | |]; try reflexivity;
        discriminate. }
    rewrite E. cbn. apply IH; assumption.
Qed.

(** The loop returns when every [from ... import] has a module. *)
Lemma import_loop_returns nodes : forall st,
  forallb has_module nodes = true ->
  exists st', import_loop nodes st = Returned st'.
Proof.
  induction nodes as [|n nodes IH]; intros st Hall.
  - eexists. reflexivity.
  - cbn [forallb] in Hall. apply andb_prop in Hall as [Hn Hall].
    assert (E : exists st1, import_step st n = Returned st1).
    { destruct n as [| | | | | | |[m|] ? ?| | | | |]; try (eexists; reflexivity).
      - simpl in Hn. eexists. cbn. unfold import_from. rewrite Hn. reflexivity.
      - discriminate. }
    destruct E as [st1 E]. cbn [import_loop]. rewrite E. cbn. apply IH, Hall.
Qed.

(** ** Line counting *)

Lemma last_cons_cons {A} (x y : A) l : last (x :: y :: l) = last (y :: l).
Proof. reflexivity. Qed.

Lemma pending_line_cons_cons cur cur' c c' rest :
  pending_line cur (c :: c' :: rest) = pending_line cur' (c' :: rest).
Proof.
  unfold pending_line. rewrite last_cons_cons.
  destruct (last (c' :: rest)) eqn:E; [reflexivity|].
  exfalso. revert c' E. induction rest as [|x rest IH]; intros c' E; [discriminate|].
  rewrite last_cons_cons in E. eauto.
Qed.

Lemma splitlines_from_length n : forall s cur,
  (length s <= n)%nat ->
  length (splitlines_from cur s) =
  (count_terminators s + if pending_line cur s then 1 else 0)%nat.
Proof.
  induction n as [|n IH]; intros s cur Hlen.
  - destruct s; [|simpl in Hlen; lia].
    destruct cur; reflexivity.
  - destruct s as [|c rest]; [destruct cur; reflexivity|].
    simpl in Hlen. cbn [splitlines_from count_terminators].
    destruct (islinebreak c) eqn:Ec.
    + destruct rest as [|c' rest'].
      * unfold pending_line. simpl. rewrite Ec. reflexivity.
      * destruct ((c =? CR)%N && (c' =? LF)%N) eqn:Ecr.
        -- cbn [length]. rewrite IH by (simpl in Hlen; lia).
           destruct rest' as [|c'' rest''].
           ++ apply andb_prop in Ecr as [_ E2]. apply N.eqb_eq in E2. subst c'.
              reflexivity.
           ++ now rewrite (pending_line_cons_cons cur [] c),
                          (pending_line_cons_cons [] [] c').
        -- cbn [length]. rewrite IH by lia.
           now rewrite (pending_line_cons_cons cur [] c).
    + rewrite IH by lia. destruct rest as [|c' rest'].
      * unfold pending_line. simpl. rewrite Ec. reflexivity.
      * now rewrite (pending_line_cons_cons cur (c :: cur) c).
Qed.

Lemma splitlines_from_simple n : forall s cur,
  (length s <= n)%nat ->
  pending_line cur s = true ->
  splitlines_from cur s = split_at_terminators_from cur s.
Proof.
  induction n as [|n IH]; intros s cur Hlen Hp.
  - destruct s; [|simpl in Hlen; lia].
    destruct cur; [discriminate | reflexivity].
  - destruct s as [|c rest]; [destruct cur; [discriminate | reflexivity]|].
    simpl in Hlen. cbn [splitlines_from split_at_terminators_from].
    destruct (islinebreak c) eqn:Ec.
    + destruct rest as [|c' rest'].
      * unfold pending_line in Hp. simpl in Hp. rewrite Ec in Hp. discriminate.
      * destruct ((c =? CR)%N && (c' =? LF)%N) eqn:Ecr.
        -- f_equal. apply IH; [simpl in Hlen; lia|].
           destruct rest' as [|c'' rest''].
           ++ apply andb_prop in Ecr as [_ E2]. apply N.eqb_eq in E2. subst c'.
              discriminate.
           ++ now rewrite (pending_line_cons_cons cur [] c),
                          (pending_line_cons_cons [] [] c') in Hp.
        -- f_equal. apply IH; [lia|].
           now rewrite (pending_line_cons_cons cur [] c) in Hp.
    + apply IH; [lia|]. destruct rest as [|c' rest'].
      * reflexivity.
      * now rewrite (pending_line_cons_cons cur (c :: cur) c) in Hp.
Qed.

Lemma pending_line_no_trailing s :
  s <> [] -> ends_with_terminator s = false -> pending_line [] s = true.
Proof.
  unfold pending_line, ends_with_terminator. intros Hne He.
  destruct (last s) as [c|] eqn:E.
  - now rewrite He.
  - apply last_None in E. contradiction.
Qed.

(** ** The feature aggregator *)

Lemma extract_parsed read_file ast_parse file_path source_code tree :
  read_file file_path = Some source_code ->
  ast_parse source_code = Some tree ->
  extract_features_and_code_from_file read_file ast_parse file_path =
  (features_dict ← features_of source_code tree;
   Returned (Some features_dict, Some source_code)).
Proof.
  intros Hr Hp. unfold extract_features_and_code_from_file. now rewrite Hr, Hp.
Qed.

Lemma extract_parsed_inv read_file ast_parse file_path source_code tree f s :
  read_file file_path = Some source_code ->
  ast_parse source_code = Some tree ->
  extract_features_and_code_from_file read_file ast_parse file_path =
    Returned (Some f, s) ->
  features_of source_code tree = Returned f /\ s = Some source_code.
Proof.
  intros Hr Hp. rewrite (extract_parsed _ _ _ _ _ Hr Hp).
  destruct (features_of source_code tree) as [f'|e]; cbn; [|discriminate].
  intros [= -> <-]. split; reflexivity.
Qed.

(** The dictionary that extraction assembles, field by field. *)
Lemma features_of_fields source_code tree f :
  features_of source_code tree = Returned f ->
  exists st,
    import_loop (walk tree) import_locals_init = Returned st /\
    f !! "LOC" = Some (Z.of_nat (length (splitlines source_code))) /\
    f !! "No_of_Functions" = Some (count_instances is_FunctionDef tree) /\
    f !! "No_of_Classes" = Some (count_instances is_ClassDef tree) /\
    f !! "No_of_Loops" = Some (count_instances is_loop tree) /\
    f !! "Loop_Nesting_Depth" =
      Some (max_loop_depth (visit tree new_FeatureExtractor)) /\
    f !! "No_of_Conditional_Blocks" = Some (count_instances is_If tree) /\
    f !! "Import_Score" = Some (weighted_import_score (imported_libs st)) /\
    f !! "I/O Calls" = Some (file_io_calls (visit tree new_FeatureExtractor)).
Proof.
  unfold features_of.
  destruct (import_loop (walk tree) import_locals_init) as [st|e]; cbn;
    [|discriminate].
  intros [= <-]. exists st. split; [reflexivity|].
  repeat split; lookup_field.
Qed.

(** Extraction of a parsed text returns a record whenever every
    [from ... import] of the tree names a module. *)
Lemma features_of_returns source_code tree :
  forallb has_module (walk tree) = true ->
  exists f, features_of source_code tree = Returned f.
Proof.
  intros H. destruct (import_loop_returns _ import_locals_init H) as [st Hst].
  unfold features_of. rewrite Hst. eexists. reflexivity.
Qed.

(** The keys of an extracted record are the eight labels. *)
Lemma features_of_dom source_code tree f :
  features_of source_code tree = Returned f -> dom f = list_to_set FEATURES_ORDER.
Proof.
  unfold features_of.
  destruct (import_loop (walk tree) import_locals_init) as [st|e]; cbn;
    [|discriminate].
  intros [= <-]. cbn [list_to_map foldr uncurry fst snd].
  rewrite !dom_insert_L, dom_empty_L. reflexivity.
Qed.

(** A form feed is a line boundary for [splitlines]. *)
Example splitlines_form_feed :
  splitlines [97; 12; 98]%N = [[97]; [98]]%N.
Proof. reflexivity. Qed.

Lemma import_score_eq tree st :
  import_loop (walk tree) import_locals_init = Returned st ->
  imported_libs st = imported_top_level tree.
Proof.
  intros H. apply import_loop_spec in H as [_ H];
    [|exact import_locals_init_recorded].
  rewrite H. unfold imported_top_level. simpl. set_solver.
Qed.

Lemma is_io_call_site n : is_io_call n = io_call_site n.
Proof.
  destruct n as [| | | | | | | |func args| | | |]; try reflexivity.
  destruct func; try reflexivity; simpl; apply bool_decide_ext;
    unfold file_io_funcs, io_names; now rewrite elem_of_list_to_set.
Qed.

Lemma count_in_ext f g l : (forall n, f n = g n) -> count_in f l = count_in g l.
Proof.
  intros H. unfold count_in. f_equal. apply map_ext. intros n. now rewrite H.
Qed.

Lemma count_in_Permutation f l1 l2 :
  Permutation l1 l2 -> count_in f l1 = count_in f l2.
Proof. intros H. apply py_sum_Permutation, Permutation_map, H. Qed.

(** The two accumulators of a walk that starts from a fresh extractor. *)
Lemma visit_fresh tree :
  0 <= max_loop_depth (visit tree new_FeatureExtractor) <=
    count_instances is_loop tree /\
  file_io_calls (visit tree new_FeatureExtractor) =
    count_in io_call_site (walk tree).
Proof.
  destruct (visit_effect_preorder tree new_FeatureExtractor) as (_ & H2 & H3 & H4).
  rewrite count_instances_preorder.
  pose proof (count_nonneg is_loop (preorder tree)) as P.
  fold (count_in is_loop (preorder tree)) in P.
  cbn [new_FeatureExtractor max_loop_depth current_depth file_io_calls] in *.
  split; [lia|].
  rewrite H4, (count_in_Permutation _ _ _ (walk_Permutation tree)).
  rewrite (count_in_ext _ _ _ is_io_call_site). lia.
Qed.

(** ** Properties of feature extraction *)

(** The outcomes of extraction, by how far it gets: no text, a text that
    does not parse, or a parsed text, for which the result is that of
    [features_of] paired with the text. *)
Lemma extract_outcomes read_file ast_parse file_path :
  match read_file file_path with
  | None =>
      extract_features_and_code_from_file read_file ast_parse file_path =
        Returned (None, None)
  | Some source_code =>
      match ast_parse source_code with
      | None =>
          extract_features_and_code_from_file read_file ast_parse file_path =
            Returned (None, Some source_code)
      | Some tree =>
          match features_of source_code tree with
          | Returned f =>
              extract_features_and_code_from_file read_file ast_parse file_path =
                Returned (Some f, Some source_code)
          | Raised e =>
              extract_features_and_code_from_file read_file ast_parse file_path =
                Raised e
          end
      end
  end.
Proof.
  unfold extract_features_and_code_from_file.
  destruct (read_file file_path) as [source_code|]; [|reflexivity].
  destruct (ast_parse source_code) as [tree|]; [|reflexivity].
  destruct (features_of source_code tree); reflexivity.
Qed.

(** A relative import with no module adds no name when [lib] is already
    bound. *)
Lemma import_from_absent_module st st' :
  import_from st None = Returned st' ->
  lib_recorded st ->
  imported_libs st' = imported_libs st.
Proof.
  intros H Hst.
  destruct (import_step_spec st (ImportFrom None [] 0) st' H Hst) as [_ ->].
  simpl. set_solver.
Qed.

(** C1 (evaluation at the failing input): for a file whose only import
    statement is [from . import x], the statements after the parse raise
    [UnboundLocalError] for the local [lib]; no feature record and no
    ImportScore is produced, whatever the text of the file. *)
Theorem relative_import_only_raises source_code :
  features_of source_code tree_relative_import =
    Raised (UnboundLocalError "lib").
Proof. reflexivity. Qed.

(** C3 (evaluation at the failing input): the text [from . import x] is
    read and parses, and extraction returns no pair at all: it raises. *)
Theorem parsed_relative_import_returns_no_pair read_file ast_parse file_path :
  read_file file_path = Some source_relative_import ->
  ast_parse source_relative_import = Some tree_relative_import ->
  extract_features_and_code_from_file read_file ast_parse file_path =
    Raised (UnboundLocalError "lib") /\
  forall r s,
    extract_features_and_code_from_file read_file ast_parse file_path <>
      Returned (r, s).
Proof.
  intros Hr Hp. rewrite (extract_parsed _ _ _ _ _ Hr Hp).
  rewrite relative_import_only_raises. split; [reflexivity | discriminate].
Qed.

Lemma parsed_relative_import_returns_no_pair_witness :
  extract_features_and_code_from_file
    (read_only "pkg/mod.py" source_relative_import)
    (parse_only source_relative_import tree_relative_import) "pkg/mod.py" =
    Raised (UnboundLocalError "lib") /\
  forall r s,
    extract_features_and_code_from_file
      (read_only "pkg/mod.py" source_relative_import)
      (parse_only source_relative_import tree_relative_import) "pkg/mod.py" <>
      Returned (r, s).
Proof.
  apply parsed_relative_import_returns_no_pair; reflexivity.
Defined.

(** C4: when extraction of a parsed text yields a feature record, its loop
    nesting depth is at most its loop count, each of the eight fields is
    present and non-negative, and for a tree with no [for] or [while] node
    the depth and the loop count are both 0. *)
Theorem feature_record_invariants read_file ast_parse file_path source_code tree f s :
  read_file file_path = Some source_code ->
  ast_parse source_code = Some tree ->
  extract_features_and_code_from_file read_file ast_parse file_path =
    Returned (Some f, s) ->
  (exists loops depth,
     f !! "No_of_Loops" = Some loops /\
     f !! "Loop_Nesting_Depth" = Some depth /\
     depth <= loops /\
     (Forall (fun n => is_loop n = false) (preorder tree) ->
      depth = 0 /\ loops = 0)) /\
  Forall (fun key => exists v, f !! key = Some v /\ 0 <= v) FEATURES_ORDER.
Proof.
  intros Hr Hp He.
  destruct (extract_parsed_inv _ _ _ _ _ _ _ Hr Hp He) as [Hf _].
  destruct (features_of_fields _ _ _ Hf)
    as (st & Hst & HLOC & Hfun & Hcls & Hloops & Hdepth & Hif & Hscore & Hio).
  destruct (visit_fresh tree) as [Hd Hc].
  split.
  - eexists _, _. split; [exact Hloops|]. split; [exact Hdepth|].
    split; [lia|]. intros Hnone.
    rewrite count_instances_preorder in *.
    rewrite (count_in_zero _ _ Hnone) in *. lia.
  - unfold FEATURES_ORDER.
    repeat (constructor; [eexists; split; [eassumption|]|]); try constructor.
    + lia.
    + apply count_nonneg.
    + apply count_nonneg.
    + apply count_nonneg.
    + lia.
    + apply count_nonneg.
    + apply weighted_import_score_nonneg.
    + rewrite Hc. apply count_nonneg.
Qed.

Lemma feature_record_invariants_witness :
  (exists loops depth,
     features_nested_loops !! "No_of_Loops" = Some loops /\
     features_nested_loops !! "Loop_Nesting_Depth" = Some depth /\
     depth <= loops /\
     (Forall (fun n => is_loop n = false) (preorder tree_nested_loops) ->
      depth = 0 /\ loops = 0)) /\
  Forall (fun key => exists v, features_nested_loops !! key = Some v /\ 0 <= v)
         FEATURES_ORDER.
Proof.
  apply (feature_record_invariants
           (read_only "nested.py" source_nested_loops)
           (parse_only source_nested_loops tree_nested_loops)
           "nested.py" source_nested_loops tree_nested_loops
           features_nested_loops (Some source_nested_loops));
    reflexivity.
Defined.

(** C5: for the text of two nested [for] loops around [open('f')],
    extraction returns a record with LOC 3, no functions, no classes,
    2 loops, nesting depth 2, no conditional blocks, import score 0 and
    1 I/O call, together with the text. *)
Theorem nested_loops_features read_file ast_parse file_path :
  read_file file_path = Some source_nested_loops ->
  ast_parse source_nested_loops = Some tree_nested_loops ->
  exists f,
    extract_features_and_code_from_file read_file ast_parse file_path =
      Returned (Some f, Some source_nested_loops) /\
    f !! "LOC" = Some 3 /\
    f !! "No_of_Functions" = Some 0 /\
    f !! "No_of_Classes" = Some 0 /\
    f !! "No_of_Loops" = Some 2 /\
    f !! "Loop_Nesting_Depth" = Some 2 /\
    f !! "No_of_Conditional_Blocks" = Some 0 /\
    f !! "I/O Calls" = Some 1 /\
    f !! "Import_Score" = Some 0 /\
    dom f = list_to_set FEATURES_ORDER.
Proof.
  intros Hr Hp. exists features_nested_loops.
  rewrite (extract_parsed _ _ _ _ _ Hr Hp).
  repeat split; reflexivity.
Qed.

Lemma nested_loops_features_witness :
  exists f,
    extract_features_and_code_from_file
      (read_only "nested.py" source_nested_loops)
      (parse_only source_nested_loops tree_nested_loops) "nested.py" =
      Returned (Some f, Some source_nested_loops) /\
    f !! "LOC" = Some 3 /\
    f !! "No_of_Functions" = Some 0 /\
    f !! "No_of_Classes" = Some 0 /\
    f !! "No_of_Loops" = Some 2 /\
    f !! "Loop_Nesting_Depth" = Some 2 /\
    f !! "No_of_Conditional_Blocks" = Some 0 /\
    f !! "I/O Calls" = Some 1 /\
    f !! "Import_Score" = Some 0 /\
    dom f = list_to_set FEATURES_ORDER.
Proof.
  apply nested_loops_features; reflexivity.
Defined.

(** C6: the I/O call count of a record is the number of call nodes of the
    tree whose callee is a bare name, or an attribute access with a member
    name, among open, read, write, remove, rename, copy, seek, tell and
    flush; visiting one call adds one exactly for such a callee, on top of
    what the calls below it add; so [obj.read()] and [read()] add one each
    and [reader.readline()] adds nothing. *)
Theorem io_call_count source_code tree f :
  features_of source_code tree = Returned f ->
  f !! "I/O Calls" = Some (count_in io_call_site (walk tree)) /\
  (forall func args self,
     file_io_calls (visit (Call func args) self) =
       file_io_calls self
       + (if io_call_site (Call func args) then 1 else 0)
       + count_in io_call_site (flat_map preorder (func :: args))) /\
  (forall self,
     file_io_calls (visit call_obj_read self) = file_io_calls self + 1 /\
     file_io_calls (visit call_read self) = file_io_calls self + 1 /\
     file_io_calls (visit call_reader_readline self) = file_io_calls self).
Proof.
  intros Hf.
  destruct (features_of_fields _ _ _ Hf) as (st & _ & _ & _ & _ & _ & _ & _ & _ & Hio).
  split; [|split].
  - rewrite Hio. f_equal. apply visit_fresh.
  - intros func args self.
    destruct (visit_effect_preorder (Call func args) self) as (_ & _ & _ & H4).
    rewrite H4, count_in_preorder, !(count_in_ext _ _ _ is_io_call_site).
    rewrite is_io_call_site. cbn [iter_child_nodes].
    destruct (io_call_site (Call func args)); simpl; lia.
  - intros self. repeat split; simpl; lia.
Qed.

Lemma io_call_count_witness :
  features_nested_loops !! "I/O Calls" =
    Some (count_in io_call_site (walk tree_nested_loops)) /\
  (forall func args self,
     file_io_calls (visit (Call func args) self) =
       file_io_calls self
       + (if io_call_site (Call func args) then 1 else 0)
       + count_in io_call_site (flat_map preorder (func :: args))) /\
  (forall self,
     file_io_calls (visit call_obj_read self) = file_io_calls self + 1 /\
     file_io_calls (visit call_read self) = file_io_calls self + 1 /\
     file_io_calls (visit call_reader_readline self) = file_io_calls self).
Proof.
  apply (io_call_count source_nested_loops tree_nested_loops features_nested_loops).
  reflexivity.
Defined.

Lemma is_line_boundary_islinebreak c : is_line_boundary c = islinebreak c.
Proof.
  apply Bool.eq_iff_eq_true. unfold is_line_boundary, islinebreak.
  cbn [existsb].
  rewrite !orb_true_iff, !andb_true_iff, !N.leb_le, !N.eqb_eq. lia.
Qed.

Lemma count_line_boundaries_terminators s :
  count_line_boundaries s = count_terminators s.
Proof.
  assert (H : forall n s, (length s <= n)%nat ->
                count_line_boundaries s = count_terminators s).
  { clear s. induction n as [|n IH]; intros s Hlen.
    - destruct s; [reflexivity | simpl in Hlen; lia].
    - destruct s as [|c rest]; [reflexivity|]. simpl in Hlen.
      cbn [count_line_boundaries count_terminators].
      rewrite is_line_boundary_islinebreak.
      destruct (islinebreak c); [|apply IH; lia].
      destruct rest as [|c' rest']; [reflexivity|].
      destruct ((c =? CR)%N && (c' =? LF)%N); f_equal; apply IH;
        simpl in Hlen |- *; lia. }
  apply (H (length s)). lia.
Qed.

Lemma ends_with_line_boundary_terminator s :
  ends_with_line_boundary s = ends_with_terminator s.
Proof.
  unfold ends_with_line_boundary, ends_with_terminator.
  destruct (last s); [apply is_line_boundary_islinebreak | reflexivity].
Qed.

Lemma split_on_newline_from_length s : forall cur,
  length (split_on_newline_from cur s) = S (count_newlines s).
Proof.
  unfold count_newlines.
  induction s as [|c rest IH]; intros cur; [reflexivity|].
  cbn [split_on_newline_from List.filter].
  rewrite (N.eqb_sym LF c).
  destruct (c =? LF)%N; cbn [length]; now rewrite IH.
Qed.

(** In a text whose only line boundary is the line feed, the boundaries are
    the newlines. *)
Lemma count_terminators_newlines s :
  Forall (fun c => is_line_boundary c = true -> c = LF) s ->
  count_terminators s = count_newlines s.
Proof.
  unfold count_newlines.
  induction 1 as [|c rest Hc _ IH]; [reflexivity|].
  cbn [count_terminators List.filter].
  rewrite is_line_boundary_islinebreak in Hc.
  destruct (islinebreak c) eqn:E.
  - rewrite (Hc eq_refl). cbn [N.eqb Pos.eqb length].
    destruct rest as [|c' rest']; [reflexivity|].
    change ((LF =? CR)%N && (c' =? LF)%N) with false. cbv iota.
    now rewrite IH.
  - destruct (LF =? c)%N eqn:El; [|exact IH].
    apply N.eqb_eq in El. subst c. discriminate.
Qed.

(** C9 (counterexample): with the newline as the only line terminator,
    LOC is not the number of terminators plus one.  The text of a comment
    with a form feed in it,
    followed by an assignment, parses; it is not empty and does not end
    with a newline; it has one newline, so two lines by a split at
    newlines, and its LOC is 3. *)
Lemma loc_is_not_newline_count :
  extract_features_and_code_from_file
    (read_only "ff.py" source_form_feed)
    (parse_only source_form_feed tree_form_feed) "ff.py" =
    Returned (Some features_form_feed, Some source_form_feed) /\
  source_form_feed <> [] /\
  ends_with_newline source_form_feed = false /\
  count_newlines source_form_feed = 1%nat /\
  length (split_on_newline source_form_feed) = 2%nat /\
  features_form_feed !! "LOC" = Some 3 /\
  features_form_feed !! "LOC" <>
    Some (Z.of_nat (count_newlines source_form_feed) + 1) /\
  features_form_feed !! "LOC" <>
    Some (Z.of_nat (length (split_on_newline source_form_feed))).
Proof.
  repeat split; try reflexivity; discriminate.
Qed.

(** C9 (as amended): for a non-empty text that does not end with a line
    boundary, the LOC of the record is the number of line boundaries plus
    one, where the boundaries are those of [str.splitlines]: the line
    feed, the vertical tab, the form feed, the carriage return (with a
    line feed that follows it counting as one), the file, group and record
    separators, the next-line character and the line and paragraph
    separators.  When the line feed is the only such character of the
    text, the LOC is the number of newlines plus one, the count of a split
    at newlines. *)
Theorem loc_counts_line_boundaries read_file ast_parse file_path source_code tree f s :
  read_file file_path = Some source_code ->
  ast_parse source_code = Some tree ->
  extract_features_and_code_from_file read_file ast_parse file_path =
    Returned (Some f, s) ->
  source_code <> [] ->
  ends_with_line_boundary source_code = false ->
  f !! "LOC" = Some (Z.of_nat (count_line_boundaries source_code) + 1) /\
  (Forall (fun c => is_line_boundary c = true -> c = LF) source_code ->
   f !! "LOC" = Some (Z.of_nat (count_newlines source_code) + 1) /\
   f !! "LOC" = Some (Z.of_nat (length (split_on_newline source_code)))).
Proof.
  intros Hr Hp He Hne Hend.
  destruct (extract_parsed_inv _ _ _ _ _ _ _ Hr Hp He) as [Hf _].
  destruct (features_of_fields _ _ _ Hf) as (st & _ & HLOC & _).
  rewrite ends_with_line_boundary_terminator in Hend.
  pose proof (pending_line_no_trailing _ Hne Hend) as Hpend.
  assert (E : f !! "LOC" = Some (Z.of_nat (count_terminators source_code) + 1)).
  { rewrite HLOC. unfold splitlines.
    rewrite (splitlines_from_length (length source_code)) by lia.
    rewrite Hpend. f_equal. lia. }
  split.
  - now rewrite count_line_boundaries_terminators.
  - intros Honly. rewrite E, (count_terminators_newlines _ Honly).
    unfold split_on_newline. rewrite split_on_newline_from_length.
    split; f_equal; lia.
Qed.

Lemma loc_counts_line_boundaries_witness :
  features_two_lines !! "LOC" =
    Some (Z.of_nat (count_line_boundaries source_two_lines) + 1) /\
  features_two_lines !! "LOC" =
    Some (Z.of_nat (count_newlines source_two_lines) + 1) /\
  features_two_lines !! "LOC" =
    Some (Z.of_nat (length (split_on_newline source_two_lines))).
Proof.
  destruct (loc_counts_line_boundaries
              (read_only "two.py" source_two_lines)
              (parse_only source_two_lines tree_two_lines)
              "two.py" source_two_lines tree_two_lines
              features_two_lines (Some source_two_lines)
              eq_refl eq_refl eq_refl ltac:(discriminate) eq_refl) as [H1 H2].
  split; [exact H1|]. apply H2.
  repeat (constructor;
          [intros H0; first [reflexivity | vm_compute in H0; discriminate H0]|]).
  constructor.
Defined.

(** ** Properties of the import score *)

Lemma py_sum_singleton x : py_sum [x] = x.
Proof. unfold py_sum. simpl. lia. Qed.

Lemma features_of_import_one source_code name :
  exists f,
    features_of source_code (tree_import_one name) = Returned f /\
    f !! "Import_Score" =
      Some (weighted_import_score
              (if truthy (first_segment name)
               then {[first_segment name]} ∪ ∅ else ∅)).
Proof.
  eexists. split; [reflexivity|]. lookup_field.
Qed.

Lemma features_of_import_twice source_code l :
  exists f,
    features_of source_code (tree_import_twice l) = Returned f /\
    f !! "Import_Score" =
      Some (weighted_import_score
              (imported_libs
                 (import_alias
                    (import_alias import_locals_init
                       {| alias_name := l ++ ".a"; asname := None |})
                    {| alias_name := l ++ ".b"; asname := None |}))).
Proof.
  eexists. split; [reflexivity|]. lookup_field.
Qed.

(** C7: the import score of a record is the sum of the weights (2 for a
    name that is not in the table) over a duplicate-free list of exactly
    the top-level names the tree imports; two imports [l.a] and [l.b] of
    one library [l] score the weight of [l] once; a single import of a
    name that is not in the table scores 2. *)
Theorem import_score_deduplicated_sum :
  (forall source_code tree f,
     features_of source_code tree = Returned f ->
     exists names : list string,
       NoDup names /\
       (forall l, l ∈ names <-> l ∈ flat_map top_level_names (walk tree)) /\
       f !! "Import_Score" =
         Some (py_sum (map (fun l => default 2 (library_weights !! l)) names))) /\
  (forall source_code l,
     contains "." l = false -> truthy l = true ->
     exists f,
       features_of source_code (tree_import_twice l) = Returned f /\
       f !! "Import_Score" = Some (default 2 (library_weights !! l))) /\
  (forall source_code name,
     truthy (first_segment name) = true ->
     library_weights !! first_segment name = None ->
     exists f,
       features_of source_code (tree_import_one name) = Returned f /\
       f !! "Import_Score" = Some 2).
Proof.
  split; [|split].
  - intros source_code tree f Hf.
    destruct (features_of_fields _ _ _ Hf) as (st & Hst & _ & _ & _ & _ & _ & _ & Hs & _).
    exists (elements (imported_top_level tree)). split; [apply NoDup_elements|].
    split.
    + intros l. rewrite elem_of_elements. unfold imported_top_level.
      apply elem_of_list_to_set.
    + rewrite Hs, (import_score_eq _ _ Hst). reflexivity.
  - intros source_code l Hdot Hl.
    destruct (features_of_import_twice source_code l) as (f & Hf & Hs).
    exists f. split; [exact Hf|]. rewrite Hs. f_equal.
    unfold import_alias. cbn [alias_name imported_libs import_locals_init].
    change (l ++ ".a") with (l ++ String "." "a").
    change (l ++ ".b") with (l ++ String "." "b").
    rewrite !first_segment_prefix by exact Hdot. rewrite Hl.
    assert (E : ({[l]} ∪ ({[l]} ∪ ∅) : gset string) = {[l]}) by set_solver.
    rewrite E. unfold weighted_import_score.
    rewrite elements_singleton. apply py_sum_singleton.
  - intros source_code name Ht Hnone.
    destruct (features_of_import_one source_code name) as (f & Hf & Hs).
    exists f. split; [exact Hf|]. rewrite Hs, Ht. f_equal.
    assert (E : ({[first_segment name]} ∪ ∅ : gset string) = {[first_segment name]})
      by set_solver.
    rewrite E. unfold weighted_import_score.
    rewrite elements_singleton. cbn [map]. rewrite py_sum_singleton.
    unfold weight. now rewrite Hnone.
Qed.

Lemma import_score_deduplicated_sum_witness :
  (exists names : list string,
     NoDup names /\
     (forall l, l ∈ names <-> l ∈ flat_map top_level_names (walk tree_imports)) /\
     features_imports !! "Import_Score" =
       Some (py_sum (map (fun l => default 2 (library_weights !! l)) names))) /\
  (exists f,
     features_of source_two_lines (tree_import_twice "torch") = Returned f /\
     f !! "Import_Score" = Some (default 2 (library_weights !! "torch"))) /\
  (exists f,
     features_of source_two_lines (tree_import_one "mylib.core") = Returned f /\
     f !! "Import_Score" = Some 2).
Proof.
  split; [|split].
  - apply (proj1 import_score_deduplicated_sum (str "a
b
c") tree_imports features_imports).
    reflexivity.
  - apply (proj1 (proj2 import_score_deduplicated_sum)); reflexivity.
  - apply (proj2 (proj2 import_score_deduplicated_sum)); reflexivity.
Defined.

Lemma unreachable_keys_not_wellformed key :
  key ∈ unreachable_keys ->
  contains "." key = true \/
  string_forallb (fun c => is_identifier_char c || Ascii.eqb c ".") key = false.
Proof.
  unfold unreachable_keys. rewrite !elem_of_cons, elem_of_nil.
  intros [->|[->|[->|[]]]]; [left | right | right]; reflexivity.
Qed.

Lemma first_segment_reachable name key :
  key ∈ unreachable_keys -> dotted_name name = true -> first_segment name <> key.
Proof.
  intros Hk Hd <-. apply unreachable_keys_not_wellformed in Hk as [Hk|Hk].
  - now rewrite first_segment_no_dot in Hk.
  - unfold dotted_name in Hd. apply first_segment_forallb in Hd. congruence.
Qed.

Lemma top_level_names_reachable n key :
  key ∈ unreachable_keys -> import_names_wellformed n = true ->
  key ∉ top_level_names n.
Proof.
  intros Hk Hn Hin.
  destruct n as [| | | | | |names|module ? ?| | | | |]; simpl in Hin;
    try (apply elem_of_nil in Hin; contradiction).
  - apply list_elem_of_filter in Hin as [_ Hin].
    apply list_elem_of_fmap in Hin as (a & -> & Ha).
    simpl in Hn. rewrite forallb_forall in Hn.
    apply list_elem_of_In in Ha.
    exact (first_segment_reachable _ _ Hk (Hn _ Ha) eq_refl).
  - destruct module as [m|]; [|apply elem_of_nil in Hin; contradiction].
    destruct (truthy m && truthy (first_segment m));
      [|apply elem_of_nil in Hin; contradiction].
    apply list_elem_of_singleton in Hin.
    exact (first_segment_reachable _ _ Hk Hn (eq_sym Hin)).
Qed.

(** C10: a module path whose first dotted segment is [google] is looked up
    under [google], which has no entry, so the weight is the default 2 and
    not the 6 configured under [google.cloud]: [import google.cloud.storage]
    alone scores 2.  No first segment equals [google.cloud]; and when every
    module path of the import statements is one the grammar allows, none of
    [google.cloud], [scikit-learn] and [scikit-image] is ever among the
    names the loop looks up. *)
Theorem google_import_gets_default_weight :
  (forall name,
     first_segment name = "google" -> weight (first_segment name) = 2) /\
  library_weights !! "google.cloud" = Some 6 /\
  (forall source_code, exists f,
     features_of source_code tree_import_google = Returned f /\
     f !! "Import_Score" = Some 2) /\
  (forall name, first_segment name <> "google.cloud") /\
  (forall tree st,
     import_loop (walk tree) import_locals_init = Returned st ->
     forallb import_names_wellformed (walk tree) = true ->
     Forall (fun key => key ∉ imported_libs st) unreachable_keys).
Proof.
  split; [|split; [|split; [|split]]].
  - intros name ->. reflexivity.
  - reflexivity.
  - intros source_code. eexists. split; reflexivity.
  - intros name E. pose proof (first_segment_no_dot name) as H.
    rewrite E in H. discriminate.
  - intros tree st Hst Hadm. rewrite (import_score_eq _ _ Hst).
    apply Forall_forall. intros key Hk Hin.
    unfold imported_top_level in Hin. apply elem_of_list_to_set in Hin.
    apply list_elem_of_In, in_flat_map in Hin as (n & Hn & Hin).
    rewrite forallb_forall in Hadm.
    apply (top_level_names_reachable n key Hk (Hadm _ Hn)).
    now apply list_elem_of_In.
Qed.

Lemma google_import_gets_default_weight_witness :
  weight (first_segment "google.cloud.storage") = 2 /\
  (exists f,
     features_of source_two_lines tree_import_google = Returned f /\
     f !! "Import_Score" = Some 2) /\
  Forall (fun key =>
            key ∉ imported_libs
                    {| lib := Some "google";
                       imported_libs := {["google"]};
                       num_imports := 1 |})
         unreachable_keys.
Proof.
  destruct google_import_gets_default_weight as (H1 & _ & H3 & _ & H5).
  split; [apply H1; reflexivity|].
  split; [apply H3|].
  apply (H5 tree_import_google); reflexivity.
Defined.

(** ** Properties of the prediction adapter *)

Section PredictionProperties.

Context {value numeric output : Type}.
Variable to_numeric : value -> option numeric.
Variable predict : @model numeric output.

Lemma rows_of_record (d : gmap string value) :
  is_feature_record d ->
  rows (make_DataFrame ((fun v => [to_numeric v]) <$> d)) =
    [map (coerced to_numeric d) FEATURES_ORDER].
Proof.
  intros Hd. unfold make_DataFrame. cbn [rows].
  assert (HLOC : is_Some (d !! "LOC")).
  { apply elem_of_dom. rewrite Hd. unfold FEATURES_ORDER. set_solver. }
  destruct HLOC as [v Hv].
  replace (forallb _ FEATURES_ORDER) with false.
  - f_equal. apply map_ext. intros key. unfold coerced.
    rewrite lookup_fmap. destruct (d !! key); reflexivity.
  - symmetry. unfold FEATURES_ORDER. cbn [forallb].
    rewrite lookup_fmap, Hv. reflexivity.
Qed.

Lemma isnull_any_row (row : list (option numeric)) :
  isnull_any {| columns := FEATURES_ORDER; rows := [row] |} =
  existsb (fun cell => bool_decide (cell = None)) row.
Proof. unfold isnull_any. cbn. apply orb_false_r. Qed.

Lemma existsb_null_Some (ns : list numeric) :
  existsb (fun cell : option numeric => bool_decide (cell = None)) (map Some ns) = false.
Proof. induction ns as [|n ns IH]; [reflexivity|]. simpl. exact IH. Qed.

Lemma coerced_all (d : gmap string value) (keys : list string) :
  Forall (fun key => is_Some (coerced to_numeric d key)) keys ->
  exists ns : list numeric,
    Forall2 (fun key n => exists v, d !! key = Some v /\ to_numeric v = Some n)
            keys ns /\
    map (coerced to_numeric d) keys = map Some ns.
Proof.
  induction 1 as [|key keys [n Hn] _ (ns & IH1 & IH2)].
  - exists []. split; [constructor | reflexivity].
  - exists (n :: ns). split.
    + constructor; [|exact IH1]. unfold coerced in Hn.
      destruct (d !! key) as [v|]; [|discriminate]. exists v. split; [reflexivity | exact Hn].
    + cbn [map]. now rewrite Hn, IH2.
Qed.

Lemma predict_for_features_record (d : gmap string value) :
  is_feature_record d ->
  let input_df :=
    {| columns := FEATURES_ORDER; rows := [map (coerced to_numeric d) FEATURES_ORDER] |} in
  predict_for_features to_numeric predict d =
    if existsb (fun cell => bool_decide (cell = None)) (map (coerced to_numeric d) FEATURES_ORDER)
    then (None, [st_error non_numeric_error])
    else
      match predict input_df with
      | inr (y :: _) => (Some y, [model_predict input_df])
      | inr [] =>
          (None, [model_predict input_df; st_error (prediction_error index_error)])
      | inl e => (None, [model_predict input_df; st_error (prediction_error e)])
      end.
Proof.
  intros Hd input_df. unfold predict_for_features.
  assert (E : make_DataFrame ((fun v => [to_numeric v]) <$> d) = input_df).
  { unfold input_df. rewrite <- (rows_of_record d Hd). reflexivity. }
  rewrite E. unfold input_df at 1. rewrite isnull_any_row. reflexivity.
Qed.

(** C2: for a feature record with a field whose value does not coerce to a
    number, the adapter reports the non-numeric error, returns nothing and
    causes no other event, so the model is not called; and whenever the
    model is called for a feature record, each of the eight fields has
    coerced to a number. *)
Theorem non_numeric_feature_rejected (d : gmap string value) :
  is_feature_record d ->
  ((exists key v, d !! key = Some v /\ to_numeric v = None) ->
   predict_for_features to_numeric predict d =
     (None, [st_error non_numeric_error])) /\
  (forall input_df,
     model_predict input_df ∈ (predict_for_features to_numeric predict d).2 ->
     Forall (fun key => exists v n, d !! key = Some v /\ to_numeric v = Some n)
            FEATURES_ORDER).
Proof.
  intros Hd. rewrite (predict_for_features_record d Hd). split.
  - intros (key & v & Hv & Hnum).
    replace (existsb _ _) with true; [reflexivity|].
    symmetry. apply existsb_exists. exists None. split; [|reflexivity].
    apply in_map_iff. exists key. split.
    + unfold coerced. now rewrite Hv.
    + apply list_elem_of_In.
      assert (Hk : key ∈ dom d) by (apply elem_of_dom; eauto).
      rewrite Hd in Hk. now apply elem_of_list_to_set in Hk.
  - intros input_df Hin.
    destruct (existsb _ (map (coerced to_numeric d) FEATURES_ORDER)) eqn:E.
    + cbn in Hin. apply list_elem_of_singleton in Hin. discriminate.
    + apply Forall_forall. intros key Hkey.
      destruct (coerced to_numeric d key) as [n|] eqn:En.
      * unfold coerced in En. destruct (d !! key) as [v|]; [|discriminate].
        exists v, n. split; [reflexivity | exact En].
      * exfalso. apply Bool.not_true_iff_false in E. apply E.
        apply existsb_exists. exists None. split; [|reflexivity].
        apply in_map_iff. exists key. split; [exact En|].
        now apply list_elem_of_In.
Qed.

(** C8: for a feature record all of whose values coerce to numbers, the
    adapter calls the model once, with a frame of one row holding the eight
    coerced numbers in the order LOC, functions, classes, loops, nesting
    depth, conditional blocks, import score, I/O calls; when the model
    answers with a non-empty array the adapter returns its first entry. *)
Theorem adapter_passes_ordered_vector (d : gmap string value) :
  is_feature_record d ->
  (forall key v, d !! key = Some v -> is_Some (to_numeric v)) ->
  exists ns : list numeric,
    Forall2 (fun key n => exists v, d !! key = Some v /\ to_numeric v = Some n)
      ["LOC"; "No_of_Functions"; "No_of_Classes"; "No_of_Loops";
       "Loop_Nesting_Depth"; "No_of_Conditional_Blocks"; "Import_Score";
       "I/O Calls"] ns /\
    length ns = 8%nat /\
    let input_df := {| columns := FEATURES_ORDER; rows := [map Some ns] |} in
    match predict input_df with
    | inr (y :: _) =>
        predict_for_features to_numeric predict d =
          (Some y, [model_predict input_df])
    | inr [] =>
        predict_for_features to_numeric predict d =
          (None, [model_predict input_df; st_error (prediction_error index_error)])
    | inl e =>
        predict_for_features to_numeric predict d =
          (None, [model_predict input_df; st_error (prediction_error e)])
    end.
Proof.
  intros Hd Hnum.
  assert (Hall : Forall (fun key => is_Some (coerced to_numeric d key)) FEATURES_ORDER).
  { apply Forall_forall. intros key Hkey.
    assert (Hk : key ∈ dom d) by (rewrite Hd; now apply elem_of_list_to_set).
    apply elem_of_dom in Hk as [v Hv]. unfold coerced. rewrite Hv. cbn.
    exact (Hnum _ _ Hv). }
  destruct (coerced_all d _ Hall) as (ns & Hns & Hrow).
  exists ns. split; [exact Hns|]. split.
  - apply Forall2_length in Hns. now rewrite <- Hns.
  - rewrite (predict_for_features_record d Hd), Hrow, existsb_null_Some.
    cbn zeta. destruct (predict _) as [e|[|y ys]]; reflexivity.
Qed.

End PredictionProperties.

Lemma non_numeric_feature_rejected_witness :
  predict_for_features sample_to_numeric sample_model record_non_numeric =
    (None, [st_error non_numeric_error]) /\
  Forall (fun key => exists v n, record_numeric !! key = Some v /\
                                 sample_to_numeric v = Some n)
         FEATURES_ORDER.
Proof.
  split.
  - apply (proj1 (non_numeric_feature_rejected sample_to_numeric sample_model
                    record_non_numeric eq_refl)).
    exists "No_of_Loops", (VStr "two"). split; reflexivity.
  - apply (proj2 (non_numeric_feature_rejected sample_to_numeric sample_model
                    record_numeric eq_refl)
             {| columns := FEATURES_ORDER;
                rows := [[Some 3; Some 0; Some 0; Some 2; Some 2; Some 0; Some 0;
                          Some 1]] |}).
    cbn. apply list_elem_of_here.
Defined.

Lemma record_numeric_coerces key v :
  record_numeric !! key = Some v -> is_Some (sample_to_numeric v).
Proof.
  revert key v.
  change (map_Forall (fun _ v => is_Some (sample_to_numeric v)) record_numeric).
  refine (bool_decide_unpack _ _). vm_compute. exact I.
Defined.

Lemma adapter_passes_ordered_vector_witness :
  exists ns : list Z,
    Forall2 (fun key n => exists v, record_numeric !! key = Some v /\
                                    sample_to_numeric v = Some n)
      ["LOC"; "No_of_Functions"; "No_of_Classes"; "No_of_Loops";
       "Loop_Nesting_Depth"; "No_of_Conditional_Blocks"; "Import_Score";
       "I/O Calls"] ns /\
    length ns = 8%nat /\
    let input_df := {| columns := FEATURES_ORDER; rows := [map Some ns] |} in
    match sample_model input_df with
    | inr (y :: _) =>
        predict_for_features sample_to_numeric sample_model record_numeric =
          (Some y, [model_predict input_df])
    | inr [] =>
        predict_for_features sample_to_numeric sample_model record_numeric =
          (None, [model_predict input_df; st_error (prediction_error index_error)])
    | inl e =>
        predict_for_features sample_to_numeric sample_model record_numeric =
          (None, [model_predict input_df; st_error (prediction_error e)])
    end.
Proof.
  apply (adapter_passes_ordered_vector sample_to_numeric sample_model
           record_numeric eq_refl record_numeric_coerces).
Defined.

(** The sample record is accepted and the model's answer is returned. *)
Example predict_record_numeric :
  predict_for_features sample_to_numeric sample_model record_numeric =
    (Some 8,
     [model_predict
        {| columns := FEATURES_ORDER;
           rows := [[Some 3; Some 0; Some 0; Some 2; Some 2; Some 0; Some 0;
                     Some 1]] |}]).
Proof. reflexivity. Qed.

(** ** The loop nesting depth *)

Lemma max_list_nonneg l : 0 <= max_list l.
Proof. induction l as [|x l IH]; simpl; lia. Qed.

Lemma loop_depth_eq n :
  loop_depth n =
  Z.b2z (is_loop n) + max_list (map loop_depth (iter_child_nodes n)).
Proof.
  destruct n as [cs|? cs|? cs|cs|cs|cs|names|? names ?|f args|? ctx|v ? ctx|a|? cs];
    cbn [loop_depth is_loop Z.b2z iter_child_nodes map max_list fold_right];
    rewrite ?Z.add_0_l; try reflexivity.
  all: try (try f_equal; induction cs as [|c cs IHcs]; cbn [map max_list fold_right];
            [reflexivity | now rewrite IHcs]).
  all: try (induction names as [|a names IHn]; cbn [map max_list fold_right loop_depth] in *; lia).
  f_equal. induction args as [|c cs IHcs]; cbn [map max_list fold_right];
    [reflexivity | now rewrite IHcs].
Qed.

Lemma loop_depth_nonneg n : 0 <= loop_depth n.
Proof.
  rewrite loop_depth_eq.
  pose proof (max_list_nonneg (map loop_depth (iter_child_nodes n))).
  destruct (is_loop n); simpl; lia.
Qed.

Lemma visit_children_depth cs :
  Forall (fun c => forall self,
            current_depth self <= max_loop_depth self ->
            max_loop_depth (visit c self) =
              Z.max (max_loop_depth self) (current_depth self + loop_depth c)) cs ->
  forall self,
    current_depth self <= max_loop_depth self ->
    max_loop_depth (visit_children cs self) =
      Z.max (max_loop_depth self)
            (current_depth self + max_list (map loop_depth cs)).
Proof.
  induction 1 as [|c cs Hc _ IH]; intros self Hle.
  - unfold visit_children. simpl. lia.
  - rewrite visit_children_cons.
    destruct (visit_effect_preorder c self) as (Hcur & Hm & _).
    rewrite IH by lia. rewrite Hc by exact Hle. rewrite Hcur. simpl. lia.
Qed.

Lemma visit_depth n : forall self,
  current_depth self <= max_loop_depth self ->
  max_loop_depth (visit n self) =
    Z.max (max_loop_depth self) (current_depth self + loop_depth n).
Proof.
  induction n as [n IH] using node_children_ind. intros self Hle.
  pose proof (visit_children_depth _ IH) as Hcs.
  pose proof (max_list_nonneg (map loop_depth (iter_child_nodes n))) as Hnn.
  rewrite visit_eq, loop_depth_eq.
  set (ML := max_list (map loop_depth (iter_child_nodes n))) in *.
  destruct n; cbn [is_loop Z.b2z]; try (rewrite Hcs by exact Hle; f_equal; lia).
  - unfold leave_loop. cbn [max_loop_depth].
    rewrite Hcs by (unfold enter_loop; cbn [max_loop_depth current_depth]; lia).
    unfold enter_loop; cbn [max_loop_depth current_depth]. lia.
  - unfold leave_loop. cbn [max_loop_depth].
    rewrite Hcs by (unfold enter_loop; cbn [max_loop_depth current_depth]; lia).
    unfold enter_loop; cbn [max_loop_depth current_depth]. lia.
  - assert (E : max_loop_depth (count_call n self) = max_loop_depth self /\
                current_depth (count_call n self) = current_depth self).
    { unfold count_call. destruct (in_file_io_funcs _); split; reflexivity. }
    destruct E as [E1 E2]. rewrite Hcs by lia. rewrite E1, E2. f_equal; lia.
Qed.

(** X1: a walk that starts from a fresh extractor ends with the maximum
    depth equal to the loop nesting depth of the tree, the largest number
    of [For] and [While] nodes on a path from the root, and with the
    running depth back at 0. *)
Theorem max_loop_depth_is_nesting_depth tree :
  max_loop_depth (visit tree new_FeatureExtractor) = loop_depth tree /\
  current_depth (visit tree new_FeatureExtractor) = 0.
Proof.
  split.
  - rewrite visit_depth by (simpl; lia). simpl.
    pose proof (loop_depth_nonneg tree). lia.
  - apply (visit_effect_preorder tree new_FeatureExtractor).
Qed.

Lemma max_list_zero l :
  Forall (fun x => 0 <= x) l -> (max_list l = 0 <-> Forall (fun x => x = 0) l).
Proof.
  induction 1 as [|x l Hx Hl IH]; simpl.
  - split; [constructor | reflexivity].
  - pose proof (max_list_nonneg l). split.
    + intros H0. constructor; [lia|]. apply IH. lia.
    + intros H0. inversion H0; subst. apply IH in H4. lia.
Qed.

Lemma py_sum_zero l :
  Forall (fun x => 0 <= x) l -> (py_sum l = 0 <-> Forall (fun x => x = 0) l).
Proof.
  induction 1 as [|x l Hx Hl IH].
  - split; [constructor | reflexivity].
  - rewrite py_sum_cons. pose proof (py_sum_nonneg l Hl). split.
    + intros H0. constructor; [lia|]. apply IH. lia.
    + intros H0. inversion H0; subst. apply IH in H4. lia.
Qed.

Lemma count_in_flat_map f (g : node -> list node) cs :
  count_in f (flat_map g cs) = py_sum (map (fun c => count_in f (g c)) cs).
Proof.
  induction cs as [|c cs IH]; [reflexivity|].
  cbn [flat_map map]. now rewrite count_in_app, py_sum_cons, IH.
Qed.

Lemma loop_depth_zero n :
  loop_depth n = 0 <-> count_in is_loop (preorder n) = 0.
Proof.
  induction n as [n IH] using node_children_ind.
  rewrite loop_depth_eq, count_in_preorder, count_in_flat_map.
  pose proof (max_list_nonneg (map loop_depth (iter_child_nodes n))) as H1.
  assert (H2 : Forall (fun x => 0 <= x)
                 (map (fun c => count_in is_loop (preorder c)) (iter_child_nodes n))).
  { apply Forall_map, Forall_forall. intros c _. apply count_nonneg. }
  assert (H3 : Forall (fun x => 0 <= x) (map loop_depth (iter_child_nodes n))).
  { apply Forall_map, Forall_forall. intros c _. apply loop_depth_nonneg. }
  pose proof (py_sum_nonneg _ H2) as H4.
  assert (E : max_list (map loop_depth (iter_child_nodes n)) = 0 <->
              py_sum (map (fun c => count_in is_loop (preorder c))
                        (iter_child_nodes n)) = 0).
  { rewrite (max_list_zero _ H3), (py_sum_zero _ H2), !Forall_map.
    split; intros H; rewrite Forall_forall in *; intros c Hc;
      apply (IH c Hc), (H c Hc). }
  destruct (is_loop n); simpl; [lia|]. rewrite !Z.add_0_l. exact E.
Qed.

(** X2: the maximum loop depth of a walk is 0 exactly when the tree has no
    [For] or [While] node, and at least 1 otherwise. *)
Theorem max_loop_depth_zero_iff_no_loop tree :
  (max_loop_depth (visit tree new_FeatureExtractor) = 0 <->
   count_instances is_loop tree = 0) /\
  (1 <= count_instances is_loop tree <->
   1 <= max_loop_depth (visit tree new_FeatureExtractor)).
Proof.
  destruct (visit_effect_preorder tree new_FeatureExtractor) as (_ & Hm & _).
  assert (E : max_loop_depth (visit tree new_FeatureExtractor) = loop_depth tree).
  { rewrite visit_depth by (simpl; lia). simpl.
    pose proof (loop_depth_nonneg tree). lia. }
  rewrite E, count_instances_preorder.
  pose proof (loop_depth_zero tree) as Hz.
  pose proof (loop_depth_nonneg tree).
  pose proof (count_nonneg is_loop (preorder tree)) as Hc.
  fold (count_in is_loop (preorder tree)) in Hc.
  split; [exact Hz|]. split; intros; [assert (loop_depth tree <> 0) | assert (count_in is_loop (preorder tree) <> 0)]; try lia;
    intros Hq; apply Hz in Hq; lia.
Qed.

(** ** When extraction raises *)

Lemma import_alias_fold_lib names : forall st,
  lib st <> None -> lib (fold_left import_alias names st) <> None.
Proof.
  induction names as [|a names IH]; intros st Hst; [exact Hst|].
  cbn [fold_left]. apply IH. discriminate.
Qed.

(** Once [lib] is bound the loop runs to its end. *)
Lemma import_loop_bound_returns nodes : forall st,
  lib st <> None -> exists st', import_loop nodes st = Returned st'.
Proof.
  induction nodes as [|n nodes IH]; intros st Hst; [eexists; reflexivity|].
  assert (E : exists st1, import_step st n = Returned st1 /\ lib st1 <> None).
  { destruct n as [| | | | | |names|m ? ?| | | | |];
      try (eexists; split; [reflexivity | exact Hst]).
    - eexists. split; [reflexivity|]. now apply import_alias_fold_lib.
    - cbn. unfold import_from. destruct (lib st) as [l|] eqn:El; [|contradiction].
      destruct m as [m|]; [destruct (truthy m)|];
        eexists; (split; [reflexivity | discriminate]). }
  destruct E as (st1 & E & Hst1). cbn [import_loop]. rewrite E. cbn.
  apply IH, Hst1.
Qed.

Lemma import_loop_falsy_raises pre module names level post st :
  lib st = None ->
  forallb leaves_lib_unbound pre = true ->
  module_falsy module = true ->
  import_loop (pre ++ ImportFrom module names level :: post)%list st =
    Raised (UnboundLocalError "lib").
Proof.
  revert st. induction pre as [|n pre IH]; intros st Hst Hpre Hm.
  - cbn. unfold import_from. rewrite Hst.
    destruct module as [m|]; [|reflexivity].
    simpl in Hm. destruct (truthy m); [discriminate | reflexivity].
  - cbn [forallb] in Hpre. apply andb_prop in Hpre as [Hn Hpre].
    cbn [app import_loop].
    assert (E : import_step st n = Returned st).
    { destruct n as [| | | | | |[|a names']| | | | | |]; try reflexivity;
        discriminate. }
    rewrite E. cbn. apply IH; assumption.
Qed.

Lemma import_loop_raises_inv nodes : forall st e,
  lib st = None ->
  import_loop nodes st = Raised e ->
  e = UnboundLocalError "lib" /\
  exists pre module names level post,
    nodes = (pre ++ ImportFrom module names level :: post)%list /\
    forallb leaves_lib_unbound pre = true /\
    module_falsy module = true.
Proof.
  induction nodes as [|n nodes IH]; intros st e Hst Hr; [discriminate|].
  cbn [import_loop] in Hr.
  destruct (leaves_lib_unbound n) eqn:Hn.
  - assert (E : import_step st n = Returned st).
    { destruct n as [| | | | | |[|a names']| | | | | |]; try reflexivity;
        discriminate. }
    rewrite E in Hr. cbn in Hr.
    destruct (IH _ _ Hst Hr) as (He & pre & m & names & lvl & post & Hn' & Hpre & Hm).
    split; [exact He|].
    exists (n :: pre), m, names, lvl, post. subst nodes.
    split; [reflexivity|]. split; [|exact Hm]. cbn. now rewrite Hn, Hpre.
  - destruct n as [| | | | | |[|a names]|m names lvl| | | | |]; try discriminate.
    + exfalso. cbn in Hr.
      destruct (import_loop_bound_returns nodes
                  (fold_left import_alias names (import_alias st a)))
        as [st' Hst'].
      { apply import_alias_fold_lib. discriminate. }
      cbn in Hst'. rewrite Hst' in Hr. discriminate.
    + cbn in Hr. unfold import_from in Hr. rewrite Hst in Hr.
      destruct m as [m|].
      * destruct (truthy m) eqn:Em.
        -- exfalso. cbn in Hr.
           match type of Hr with
           | import_loop nodes ?st1 = _ =>
               destruct (import_loop_bound_returns nodes st1) as [st' Hst'];
                 [discriminate | rewrite Hst' in Hr; discriminate]
           end.
        -- cbn in Hr. injection Hr as <-. split; [reflexivity|].
           exists [], (Some m), names, lvl, nodes.
           split; [reflexivity|]. split; [reflexivity|]. simpl. now rewrite Em.
      * cbn in Hr. injection Hr as <-. split; [reflexivity|].
        exists [], None, names, lvl, nodes. repeat split.
Qed.

(** X3: the import loop of extraction, run over the nodes of a tree in the
    order of [ast.walk], raises exactly when a [from ... import] with an
    absent or empty module comes before every [import] with a name and
    every other [from ... import]; the exception is then
    [UnboundLocalError] for [lib].  The loop is iterative: this is about
    the loop alone, not about the recursive walk that follows it. *)
Theorem import_loop_raises_iff tree e :
  import_loop (walk tree) import_locals_init = Raised e <->
  e = UnboundLocalError "lib" /\
  exists pre module names level post,
    walk tree = (pre ++ ImportFrom module names level :: post)%list /\
    forallb leaves_lib_unbound pre = true /\
    module_falsy module = true.
Proof.
  split.
  - intros E. exact (import_loop_raises_inv _ import_locals_init _ eq_refl E).
  - intros (-> & pre & m & names & lvl & post & Hw & Hpre & Hm).
    rewrite Hw.
    exact (import_loop_falsy_raises pre m names lvl post import_locals_init
             eq_refl Hpre Hm).
Qed.

(** ** More on line counting *)

Lemma splitlines_from_nonempty n : forall s cur,
  (length s <= n)%nat -> s <> [] \/ cur <> [] -> splitlines_from cur s <> [].
Proof.
  induction n as [|n IH]; intros s cur Hlen Hne.
  - destruct s; [|simpl in Hlen; lia].
    destruct cur; [destruct Hne; contradiction | discriminate].
  - destruct s as [|c rest].
    + destruct cur; [destruct Hne; contradiction | discriminate].
    + simpl in Hlen. cbn [splitlines_from].
      destruct (islinebreak c).
      * destruct rest as [|c' rest']; [discriminate|].
        destruct ((c =? CR)%N && (c' =? LF)%N); discriminate.
      * apply IH; [lia|]. right. discriminate.
Qed.

(** X4: the LOC of an extracted record is 0 exactly when the text is
    empty. *)
Theorem loc_zero_iff_empty source_code tree f :
  features_of source_code tree = Returned f ->
  (f !! "LOC" = Some 0 <-> source_code = []).
Proof.
  intros Hf. destruct (features_of_fields _ _ _ Hf) as (st & _ & HLOC & _).
  rewrite HLOC. split.
  - intros [= H0]. destruct source_code as [|c rest]; [reflexivity|].
    exfalso.
    apply (splitlines_from_nonempty (length (c :: rest)) (c :: rest) []);
      [lia | left; discriminate |].
    unfold splitlines in H0. destruct (splitlines_from [] (c :: rest));
      [reflexivity | simpl in H0; lia].
  - intros ->. reflexivity.
Qed.

Lemma loc_zero_iff_empty_witness :
  features_two_lines !! "LOC" = Some 0 <-> source_two_lines = [].
Proof.
  apply (loc_zero_iff_empty source_two_lines tree_two_lines features_two_lines).
  reflexivity.
Defined.

(** X5: for a text that ends with a line terminator, the LOC of an
    extracted record is the number of line terminators: the terminator at
    the end adds no line. *)
Theorem loc_with_trailing_terminator source_code tree f :
  features_of source_code tree = Returned f ->
  ends_with_terminator source_code = true ->
  f !! "LOC" = Some (Z.of_nat (count_terminators source_code)).
Proof.
  intros Hf Hend. destruct (features_of_fields _ _ _ Hf) as (st & _ & HLOC & _).
  rewrite HLOC. unfold splitlines.
  rewrite (splitlines_from_length (length source_code)) by lia.
  unfold pending_line. unfold ends_with_terminator in Hend.
  destruct (last source_code) as [c|]; [|discriminate].
  rewrite Hend. simpl. f_equal. lia.
Qed.

Lemma loc_with_trailing_terminator_witness :
  features_nested_loops !! "LOC" =
    Some (Z.of_nat (count_terminators source_nested_loops)).
Proof.
  apply (loc_with_trailing_terminator source_nested_loops tree_nested_loops);
    reflexivity.
Defined.

(** ** Bounds of the import score *)

Lemma library_weights_items_at_most_10 :
  Forall (fun kv : string * Z => kv.2 <= 10) library_weights_items.
Proof. unfold library_weights_items. repeat (constructor; [simpl; lia|]). constructor. Qed.

Lemma weight_at_most_10 l : weight l <= 10.
Proof.
  unfold weight. destruct (library_weights !! l) as [w|] eqn:E; simpl; [|lia].
  apply elem_of_list_to_map_2 in E.
  pose proof library_weights_items_at_most_10 as HF.
  rewrite Forall_forall in HF. apply (HF _ E).
Qed.

Lemma py_sum_weights_bounds (ls : list string) :
  Z.of_nat (length ls) <= py_sum (map weight ls) <= 10 * Z.of_nat (length ls).
Proof.
  induction ls as [|l ls IH]; [unfold py_sum; simpl; lia|].
  cbn [map length]. rewrite py_sum_cons.
  pose proof (weight_positive l). pose proof (weight_at_most_10 l). lia.
Qed.

(** X6: the import score of an extracted record lies between the number of
    distinct top-level names the tree imports and ten times that number;
    it is 0 exactly when the tree imports no name. *)
Theorem import_score_bounds source_code tree f :
  features_of source_code tree = Returned f ->
  exists score,
    f !! "Import_Score" = Some score /\
    Z.of_nat (length (elements (imported_top_level tree))) <= score /\
    score <= 10 * Z.of_nat (length (elements (imported_top_level tree))) /\
    (score = 0 <-> imported_top_level tree = ∅).
Proof.
  intros Hf.
  destruct (features_of_fields _ _ _ Hf) as (st & Hst & _ & _ & _ & _ & _ & _ & Hs & _).
  rewrite (import_score_eq _ _ Hst) in Hs.
  exists (weighted_import_score (imported_top_level tree)).
  split; [exact Hs|]. unfold weighted_import_score.
  pose proof (py_sum_weights_bounds (elements (imported_top_level tree))) as Hb.
  split; [lia|]. split; [lia|].
  rewrite <- (leibniz_equiv_iff (imported_top_level tree) ∅).
  rewrite <- elements_empty_iff.
  destruct (elements (imported_top_level tree)); simpl in *; split;
    intros; try lia; try reflexivity; discriminate.
Qed.

Lemma import_score_bounds_witness :
  exists score,
    features_imports !! "Import_Score" = Some score /\
    Z.of_nat (length (elements (imported_top_level tree_imports))) <= score /\
    score <= 10 * Z.of_nat (length (elements (imported_top_level tree_imports))) /\
    (score = 0 <-> imported_top_level tree_imports = ∅).
Proof.
  apply (import_score_bounds (str "a
b
c") tree_imports features_imports).
  reflexivity.
Defined.

(** ** More on the prediction adapter *)

Section PredictionOutcomes.

Context {value numeric output : Type}.
Variable to_numeric : value -> option numeric.
Variable predict : @model numeric output.

(** The frame depends on the dictionary only through the eight labels. *)
Lemma make_DataFrame_ext (m1 m2 : gmap string (list (option numeric))) :
  Forall (fun key => m1 !! key = m2 !! key) FEATURES_ORDER ->
  make_DataFrame m1 = make_DataFrame m2.
Proof.
  unfold make_DataFrame. generalize FEATURES_ORDER. intros keys H. f_equal.
  assert (E1 : forallb (fun key => bool_decide (m1 !! key = None)) keys =
               forallb (fun key => bool_decide (m2 !! key = None)) keys).
  { induction H as [|key keys Hk _ IH]; [reflexivity|].
    cbn [forallb]. rewrite IH. f_equal.
    destruct (m1 !! key), (m2 !! key); try discriminate; reflexivity. }
  assert (E2 : map (fun key => match m1 !! key with
                               | Some (cell :: _) => cell
                               | _ => None
                               end) keys =
               map (fun key => match m2 !! key with
                               | Some (cell :: _) => cell
                               | _ => None
                               end) keys).
  { clear E1. induction H as [|key keys Hk _ IH]; [reflexivity|].
    cbn [map]. now rewrite Hk, IH. }
  now rewrite E1, E2.
Qed.

(** X7: the adapter returns nothing exactly when it has shown an error;
    when it returns a value, its only event is one call of the model, and
    the value is the first entry of the model's answer to that call. *)
Theorem prediction_none_iff_error_shown (d : gmap string value) :
  ((predict_for_features to_numeric predict d).1 = None <->
   exists msg, st_error msg ∈ (predict_for_features to_numeric predict d).2) /\
  (forall y,
     (predict_for_features to_numeric predict d).1 = Some y ->
     exists input_df ys,
       (predict_for_features to_numeric predict d).2 = [model_predict input_df] /\
       predict input_df = inr (y :: ys)).
Proof.
  unfold predict_for_features.
  set (input_df := make_DataFrame _).
  destruct (isnull_any input_df).
  - split.
    + split; [intros _; eexists; apply list_elem_of_here | reflexivity].
    + intros y Hy. discriminate.
  - destruct (predict input_df) as [e|[|y0 ys]] eqn:E; cbn [fst snd].
    + split; [|intros y Hy; discriminate].
      split; [intros _; eexists; apply list_elem_of_further, list_elem_of_here
             | reflexivity].
    + split; [|intros y Hy; discriminate].
      split; [intros _; eexists; apply list_elem_of_further, list_elem_of_here
             | reflexivity].
    + split.
      * split; [discriminate|]. intros [msg Hin].
        apply list_elem_of_singleton in Hin. discriminate.
      * intros y [= <-]. exists input_df, ys. split; [reflexivity | exact E].
Qed.

(** X8: a key that is not one of the eight labels has no influence on the
    adapter: with or without it, the result and the events are the same. *)
Theorem other_keys_are_ignored (d : gmap string value) (key : string) (v : value) :
  key ∉ FEATURES_ORDER ->
  predict_for_features to_numeric predict (<[key := v]> d) =
  predict_for_features to_numeric predict d.
Proof.
  intros Hkey. unfold predict_for_features.
  rewrite (make_DataFrame_ext
             ((fun v => [to_numeric v]) <$> <[key := v]> d)
             ((fun v => [to_numeric v]) <$> d)); [reflexivity|].
  apply Forall_forall. intros k Hk. rewrite !lookup_fmap.
  rewrite lookup_insert_ne; [reflexivity|]. intros ->. contradiction.
Qed.

(** X9: when the dictionary holds some of the eight labels and lacks
    another, the adapter reports the non-numeric error and does not call
    the model. *)
Theorem missing_label_is_rejected (d : gmap string value) (present missing : string) :
  present ∈ FEATURES_ORDER -> is_Some (d !! present) ->
  missing ∈ FEATURES_ORDER -> d !! missing = None ->
  predict_for_features to_numeric predict d =
    (None, [st_error non_numeric_error]).
Proof.
  intros Hp [v Hv] Hm Hnone. unfold predict_for_features.
  replace (isnull_any _) with true; [reflexivity|]. symmetry.
  unfold isnull_any, make_DataFrame. cbn [rows].
  replace (forallb _ FEATURES_ORDER) with false.
  - cbn [existsb]. rewrite orb_false_r.
    apply existsb_exists. exists None. split; [|reflexivity].
    apply in_map_iff. exists missing. split; [|now apply list_elem_of_In].
    now rewrite lookup_fmap, Hnone.
  - symmetry. apply Bool.not_true_iff_false. intros Hall.
    rewrite forallb_forall in Hall.
    specialize (Hall present (proj1 (list_elem_of_In _ _) Hp)).
    rewrite lookup_fmap, Hv in Hall. cbn in Hall. discriminate.
Qed.

End PredictionOutcomes.

Lemma other_keys_are_ignored_witness :
  predict_for_features sample_to_numeric sample_model
    (<["Comment" := VStr "n/a"]> record_numeric) =
  predict_for_features sample_to_numeric sample_model record_numeric.
Proof.
  apply other_keys_are_ignored.
  unfold FEATURES_ORDER. rewrite !elem_of_cons, elem_of_nil.
  intros [H|[H|[H|[H|[H|[H|[H|[H|[]]]]]]]]]; discriminate.
Defined.

Lemma missing_label_is_rejected_witness :
  predict_for_features sample_to_numeric sample_model
    (delete "No_of_Loops" record_numeric) =
    (None, [st_error non_numeric_error]).
Proof.
  apply (missing_label_is_rejected sample_to_numeric sample_model
           (delete "No_of_Loops" record_numeric) "LOC" "No_of_Loops").
  - unfold FEATURES_ORDER. apply list_elem_of_here.
  - exists (VInt 3). reflexivity.
  - unfold FEATURES_ORDER. do 3 apply list_elem_of_further. apply list_elem_of_here.
  - reflexivity.
Defined.

Section ExtractThenPredict.

Context {numeric output : Type}.
Variable to_numeric : Z -> option numeric.
Variable of_int : Z -> numeric.
Variable predict : @model numeric output.

(** X10: extraction and prediction fit together.  When coercion maps every
    integer to a number, an extracted record is always accepted: the model
    is called with one row that holds, under the eight labels in their
    order, the line count, the numbers of functions, classes and loops,
    the loop nesting depth, the number of conditional blocks, the import
    score and the number of I/O call sites of the tree. *)
Theorem extracted_record_reaches_model source_code tree f :
  (forall z, to_numeric z = Some (of_int z)) ->
  features_of source_code tree = Returned f ->
  let input_df :=
    {| columns := FEATURES_ORDER;
       rows :=
         [map (fun z => Some (of_int z))
            [Z.of_nat (length (splitlines source_code));
             count_instances is_FunctionDef tree;
             count_instances is_ClassDef tree;
             count_instances is_loop tree;
             loop_depth tree;
             count_instances is_If tree;
             weighted_import_score (imported_top_level tree);
             count_in io_call_site (walk tree)]] |} in
  predict_for_features to_numeric predict f =
    match predict input_df with
    | inr (y :: _) => (Some y, [model_predict input_df])
    | inr [] =>
        (None, [model_predict input_df; st_error (prediction_error index_error)])
    | inl e => (None, [model_predict input_df; st_error (prediction_error e)])
    end.
Proof.
  intros Hnum Hf input_df.
  destruct (features_of_fields _ _ _ Hf)
    as (st & Hst & HLOC & Hfun & Hcls & Hloops & Hdepth & Hif & Hscore & Hio).
  rewrite (predict_for_features_record to_numeric predict f (features_of_dom _ _ _ Hf)).
  assert (Hrow : map (coerced to_numeric f) FEATURES_ORDER =
                 map (fun z => Some (of_int z))
                   [Z.of_nat (length (splitlines source_code));
                    count_instances is_FunctionDef tree;
                    count_instances is_ClassDef tree;
                    count_instances is_loop tree;
                    loop_depth tree;
                    count_instances is_If tree;
                    weighted_import_score (imported_top_level tree);
                    count_in io_call_site (walk tree)]).
  { unfold FEATURES_ORDER, coerced. cbn [map].
    rewrite HLOC, Hfun, Hcls, Hloops, Hdepth, Hif, Hscore, Hio. cbn.
    rewrite !Hnum. rewrite (import_score_eq _ _ Hst).
    rewrite (proj2 (visit_fresh tree)).
    rewrite visit_depth by (simpl; lia). simpl.
    pose proof (loop_depth_nonneg tree).
    replace (Z.max 0 (0 + loop_depth tree)) with (loop_depth tree) by lia.
    reflexivity. }
  rewrite Hrow.
  change (map (fun z => Some (of_int z)) ?l) with (map Some (map of_int l)).
  rewrite existsb_null_Some. reflexivity.
Qed.

End ExtractThenPredict.

Lemma extracted_record_reaches_model_witness :
  let input_df :=
    {| columns := FEATURES_ORDER;
       rows :=
         [map (fun z => Some z)
            [Z.of_nat (length (splitlines source_nested_loops));
             count_instances is_FunctionDef tree_nested_loops;
             count_instances is_ClassDef tree_nested_loops;
             count_instances is_loop tree_nested_loops;
             loop_depth tree_nested_loops;
             count_instances is_If tree_nested_loops;
             weighted_import_score (imported_top_level tree_nested_loops);
             count_in io_call_site (walk tree_nested_loops)]] |} in
  predict_for_features Some sample_model features_nested_loops =
    match sample_model input_df with
    | inr (y :: _) => (Some y, [model_predict input_df])
    | inr [] =>
        (None, [model_predict input_df; st_error (prediction_error index_error)])
    | inl e => (None, [model_predict input_df; st_error (prediction_error e)])
    end.
Proof.
  apply (extracted_record_reaches_model Some (fun z => z) sample_model
           source_nested_loops tree_nested_loops features_nested_loops);
    reflexivity.
Defined.

(** ** The recommendation request *)

Example str_of_int_samples :
  str_of_int 0 = str "0" /\ str_of_int 25 = str "25" /\ str_of_int (-7) = str "-7".
Proof. repeat split; reflexivity. Qed.

Example features_str_sample :
  features_str [("No_of_Loops", 2); ("I/O Calls", 1)] =
  str "- No of Loops: 2
- I/O Calls: 1".
Proof. reflexivity. Qed.

Lemma lstrip_head s c r : lstrip s = c :: r -> isspace c = false.
Proof.
  induction s as [|a s IH]; [discriminate|]. simpl.
  destruct (isspace a) eqn:E; [exact IH|]. intros [= <- _]. exact E.
Qed.

Lemma lstrip_app_nonspace l c :
  isspace c = false -> lstrip (l ++ [c])%list = (lstrip l ++ [c])%list.
Proof.
  intros Hc. induction l as [|a l IH]; simpl; [now rewrite Hc|].
  destruct (isspace a); [exact IH | reflexivity].
Qed.

(** A stripped text neither starts nor ends with a space character. *)
Lemma strip_ends s :
  match strip s with
  | [] => True
  | c :: _ => isspace c = false
  end /\
  match last (strip s) with
  | None => True
  | Some c => isspace c = false
  end.
Proof.
  unfold strip, rstrip. split.
  - destruct (lstrip s) as [|c t] eqn:E; [exact I|].
    pose proof (lstrip_head _ _ _ E) as Hc.
    cbn [rev]. rewrite (lstrip_app_nonspace _ _ Hc), rev_app_distr. exact Hc.
  - destruct (lstrip (rev (lstrip s))) as [|c t] eqn:E; [exact I|].
    cbn [rev]. rewrite last_snoc. exact (lstrip_head _ _ _ E).
Qed.

Section RecommendationProperties.

Variable secrets : gmap string text.
Variable AzureOpenAI : text -> text -> text -> exception + client.

Lemma handle_nonempty e : (handle e).1 <> [].
Proof. destruct e; discriminate. Qed.

Lemma handle_quiet e : forallb contacts_service (handle e).2 = false /\
                       existsb contacts_service (handle e).2 = false.
Proof. destruct e; split; reflexivity. Qed.

Lemma extract_response_nonempty choices r :
  extract_response choices = inr r -> r <> [].
Proof.
  destruct choices as [|[content|] rest]; cbn.
  - intros [= <-]. discriminate.
  - destruct (nonempty (strip content)) eqn:E; intros [= <-];
      [destruct (strip content); discriminate | discriminate].
  - discriminate.
Qed.

(** X11: whatever the credentials, the service and the answer, the text
    the function returns is never empty. *)
Theorem recommendations_never_empty source_code items :
  (get_openai_recommendations secrets AzureOpenAI source_code items).1 <> [].
Proof.
  unfold get_openai_recommendations.
  destruct (negb (forallb _ credential_names)); [discriminate|].
  destruct (negb (forallb nonempty _)); [discriminate|].
  destruct (AzureOpenAI _ _ _) as [e|create].
  - pose proof (handle_nonempty e). destruct (handle e). exact H.
  - destruct (create _ _) as [e|choices].
    + pose proof (handle_nonempty e). destruct (handle e). exact H.
    + destruct (extract_response choices) as [e|r] eqn:E.
      * pose proof (handle_nonempty e). destruct (handle e). exact H.
      * exact (extract_response_nonempty _ _ E).
Qed.

(** X12: when one of the four credentials is missing from the secrets or
    is empty, the function neither constructs a client nor sends a
    request; it returns one of its two configuration messages. *)
Theorem incomplete_credentials_contact_nothing source_code items k :
  k ∈ credential_names ->
  secrets !! k = None \/ secrets !! k = Some [] ->
  existsb contacts_service
    (get_openai_recommendations secrets AzureOpenAI source_code items).2 = false /\
  ((get_openai_recommendations secrets AzureOpenAI source_code items).1 =
     str "Credentials configuration missing." \/
   (get_openai_recommendations secrets AzureOpenAI source_code items).1 =
     str "Credentials configuration incomplete.").
Proof.
  intros Hk Hbad. unfold get_openai_recommendations.
  destruct (forallb (fun k => bool_decide (is_Some (secrets !! k))) credential_names)
    eqn:Hall; cbn [negb].
  - replace (forallb nonempty _) with false.
    + split; [reflexivity | right; reflexivity].
    + symmetry. destruct Hbad as [Hnone|Hempty].
      * exfalso. rewrite forallb_forall in Hall.
        specialize (Hall k (proj1 (list_elem_of_In _ _) Hk)).
        apply bool_decide_eq_true in Hall. rewrite Hnone in Hall.
        destruct Hall; discriminate.
      * unfold credential_names in Hk.
        rewrite !elem_of_cons, elem_of_nil in Hk.
        destruct Hk as [->|[->|[->|[->|[]]]]]; rewrite Hempty; cbn;
          rewrite ?andb_false_r; reflexivity.
  - split; [reflexivity | left; reflexivity].
Qed.

(** X13: when the service answers and the content of its first choice has
    a character that is not a space, the function returns that content
    with the spaces at both ends removed; the result neither starts nor
    ends with a space character. *)
Theorem answer_is_stripped source_code items create content rest :
  forallb (fun k => bool_decide (is_Some (secrets !! k))) credential_names = true ->
  forallb nonempty
    [default [] (secrets !! "AZURE_OPENAI_API_KEY");
     default [] (secrets !! "AZURE_OPENAI_ENDPOINT");
     default [] (secrets !! "AZURE_OPENAI_API_VERSION");
     default [] (secrets !! "AZURE_OPENAI_DEPLOYMENT_NAME")] = true ->
  AzureOpenAI (default [] (secrets !! "AZURE_OPENAI_API_KEY"))
              (default [] (secrets !! "AZURE_OPENAI_ENDPOINT"))
              (default [] (secrets !! "AZURE_OPENAI_API_VERSION")) = inr create ->
  create (default [] (secrets !! "AZURE_OPENAI_DEPLOYMENT_NAME"))
         (prompt_messages source_code items) = inr (Some content :: rest) ->
  strip content <> [] ->
  let r := (get_openai_recommendations secrets AzureOpenAI source_code items).1 in
  r = strip content /\
  match r with [] => False | c :: _ => isspace c = false end /\
  match last r with None => False | Some c => isspace c = false end.
Proof.
  intros H1 H2 H3 H4 Hne r.
  assert (E : r = strip content).
  { unfold r, get_openai_recommendations. rewrite H1, H2. cbn [negb].
    rewrite H3, H4. cbn [extract_response].
    destruct (strip content); [contradiction | reflexivity]. }
  split; [exact E|]. rewrite E.
  destruct (strip_ends content) as [Hh Hl].
  split.
  - destruct (strip content); [contradiction | exact Hh].
  - destruct (last (strip content)) eqn:El; [exact Hl|].
    apply last_None in El. contradiction.
Qed.

End RecommendationProperties.

Lemma incomplete_credentials_contact_nothing_witness :
  existsb contacts_service
    (get_openai_recommendations
       (<["AZURE_OPENAI_ENDPOINT" := []]> sample_secrets) sample_AzureOpenAI
       source_nested_loops items_nested_loops).2 = false /\
  ((get_openai_recommendations
      (<["AZURE_OPENAI_ENDPOINT" := []]> sample_secrets) sample_AzureOpenAI
      source_nested_loops items_nested_loops).1 =
     str "Credentials configuration missing." \/
   (get_openai_recommendations
      (<["AZURE_OPENAI_ENDPOINT" := []]> sample_secrets) sample_AzureOpenAI
      source_nested_loops items_nested_loops).1 =
     str "Credentials configuration incomplete.").
Proof.
  apply (incomplete_credentials_contact_nothing
           (<["AZURE_OPENAI_ENDPOINT" := []]> sample_secrets) sample_AzureOpenAI
           source_nested_loops items_nested_loops "AZURE_OPENAI_ENDPOINT").
  - unfold credential_names. apply list_elem_of_further, list_elem_of_here.
  - right. reflexivity.
Defined.

Lemma answer_is_stripped_witness :
  let r := (get_openai_recommendations sample_secrets sample_AzureOpenAI
              source_nested_loops items_nested_loops).1 in
  r = strip (str "  Use a generator.
") /\
  match r with [] => False | c :: _ => isspace c = false end /\
  match last r with None => False | Some c => isspace c = false end.
Proof.
  apply (answer_is_stripped sample_secrets sample_AzureOpenAI
           source_nested_loops items_nested_loops sample_client
           (str "  Use a generator.
") []); try reflexivity.
  discriminate.
Defined.

(** ** The processing loop *)

Section PageProperties.

Context {numeric output : Type}.
Variable read_file : string -> option text.
Variable ast_parse : text -> option node.
Variable to_numeric : Z -> option numeric.
Variable predict : @model numeric output.
Variable secrets : gmap string text.
Variable AzureOpenAI : text -> text -> text -> exception + client.
Variable display_path : string -> text.
Variable format_2f : output -> text.

Local Abbreviation run_file :=
  (process_file read_file ast_parse to_numeric predict secrets AzureOpenAI
     display_path format_2f).
Local Abbreviation run_files :=
  (process_files read_file ast_parse to_numeric predict secrets AzureOpenAI
     display_path format_2f).

Lemma count_events_app {A} (kind : A -> bool) l1 l2 :
  count_events kind (l1 ++ l2)%list =
  (count_events kind l1 + count_events kind l2)%nat.
Proof. unfold count_events. now rewrite List.filter_app, length_app. Qed.

Lemma count_events_map_none {A B} (kind : B -> bool) (g : A -> B) l :
  (forall a, kind (g a) = false) -> count_events kind (map g l) = 0%nat.
Proof.
  intros H. unfold count_events.
  induction l as [|a l IH]; [reflexivity|]. cbn. now rewrite H.
Qed.

Lemma existsb_count_events {A} (kind : A -> bool) l :
  existsb kind l = true <-> (1 <= count_events kind l)%nat.
Proof.
  unfold count_events.
  induction l as [|ev l IH]; cbn; [split; [discriminate | lia]|].
  destruct (kind ev); cbn; [split; [lia | reflexivity] | exact IH].
Qed.

Lemma extract_reports_plain file_path r :
  count_events is_divider (extract_reports (numeric := numeric) file_path r) = 0%nat /\
  count_events is_subheader (extract_reports (numeric := numeric) file_path r) = 0%nat /\
  count_events is_success (extract_reports (numeric := numeric) file_path r) = 0%nat /\
  count_events is_recommendation (extract_reports (numeric := numeric) file_path r) = 0%nat.
Proof. destruct r as [[f|] [src|]]; repeat split; reflexivity. Qed.

(** The events of one iteration, by kind. *)
Lemma process_file_counts file_path count :
  let r := run_file file_path count in
  count_events is_subheader (shown r) = 1%nat /\
  match raised r with
  | Some _ =>
      count_events is_divider (shown r) = 0%nat /\
      count_events is_success (shown r) = 0%nat /\
      count_events is_recommendation (shown r) = 0%nat /\
      overall_success_count r = count
  | None =>
      count_events is_divider (shown r) = 1%nat /\
      ((count_events is_success (shown r) = 0%nat /\
        count_events is_recommendation (shown r) = 0%nat /\
        overall_success_count r = count) \/
       (count_events is_success (shown r) = 1%nat /\
        (2 <= count_events is_recommendation (shown r))%nat /\
        overall_success_count r = count + 1))
  end.
Proof.
  unfold process_file.
  destruct (extract_features_and_code_from_file _ _ _) as [r|e];
    [|cbn; repeat split; reflexivity].
  destruct (extract_reports_plain file_path r) as (R1 & R2 & R3 & R4).
  destruct (record_and_source r) as [[f src]|].
  - destruct (predict_for_features to_numeric predict f) as [[y|] events].
    + destruct (get_openai_recommendations _ _ _ _) as [rec requests].
      cbn [shown raised overall_success_count].
      rewrite !count_events_app, R1, R2, R3, R4.
      rewrite !(count_events_map_none is_subheader), !(count_events_map_none is_divider),
        !(count_events_map_none is_success) by reflexivity.
      rewrite (count_events_map_none is_recommendation from_predict) by reflexivity.
      cbn. split; [reflexivity|]. split; [reflexivity|]. right.
      split; [reflexivity|]. split; [|reflexivity].
      unfold count_events. lia.
    + cbn [shown raised overall_success_count].
      rewrite !count_events_app, R1, R2, R3, R4.
      rewrite !(count_events_map_none is_subheader), !(count_events_map_none is_divider),
        !(count_events_map_none is_success),
        !(count_events_map_none is_recommendation) by reflexivity.
      cbn. repeat split; try reflexivity. left. repeat split; reflexivity.
  - cbn [shown raised overall_success_count].
    rewrite !count_events_app, R1, R2, R3, R4.
    cbn. repeat split; try reflexivity. left. repeat split; reflexivity.
Qed.

(** X14: for one file, recommendations appear on the page exactly when a
    prediction succeeded for it, which is exactly when the count of
    successes grows, by one. *)
Theorem recommendations_follow_success file_path count :
  let r := run_file file_path count in
  (existsb is_recommendation (shown r) = true <->
   existsb is_success (shown r) = true) /\
  (existsb is_success (shown r) = true <->
   overall_success_count r = count + 1) /\
  (overall_success_count r = count \/ overall_success_count r = count + 1).
Proof.
  intros r. pose proof (process_file_counts file_path count) as [_ H].
  fold r in H.
  rewrite !existsb_count_events.
  destruct (raised r); [destruct H as (H1 & H2 & H3 & H4)
                       | destruct H as (H1 & [(H2 & H3 & H4)|(H2 & H3 & H4)])];
    rewrite ?H2, ?H3, H4; repeat split; intros; try lia; auto.
Qed.

(** X15: a file whose text is empty and parses is passed over in silence:
    its heading and the divider are all that is shown, no prediction is
    made and the count of successes is unchanged. *)
Theorem empty_file_is_passed_over file_path count tree f :
  read_file file_path = Some [] ->
  ast_parse [] = Some tree ->
  features_of [] tree = Returned f ->
  run_file file_path count =
    {| shown := [st_subheader (str "Results for: " ++ display_path file_path)%list;
                 st_divider];
       overall_success_count := count;
       raised := None |}.
Proof.
  intros Hr Hp Hf. unfold process_file.
  rewrite (extract_parsed _ _ _ _ _ Hr Hp), Hf. cbn.
  rewrite andb_false_r. reflexivity.
Qed.

(** X16: an exception raised by extraction ends the run: after the files
    before it, only the heading of the failing file is shown, and no file
    after it is processed. *)
Theorem exception_ends_the_run before file_path after count e :
  raised (run_files before count) = None ->
  extract_features_and_code_from_file read_file ast_parse file_path = Raised e ->
  run_files (before ++ file_path :: after)%list count =
    {| shown :=
         (shown (run_files before count)
          ++ [st_subheader (str "Results for: " ++ display_path file_path)%list])%list;
       overall_success_count := overall_success_count (run_files before count);
       raised := Some e |}.
Proof.
  revert count. induction before as [|p before IH]; intros count Hnone He.
  - cbn [app process_files]. unfold process_file.
    rewrite He. reflexivity.
  - cbn [app process_files] in *.
    destruct (raised (run_file p count)) eqn:Hp; [congruence|].
    cbn [raised] in Hnone. rewrite IH by assumption.
    cbn [shown overall_success_count raised]. now rewrite app_assoc.
Qed.

(** X17: in a run that no exception ends, every file has one heading and
    one divider, and the count of successes has grown by the number of
    predictions shown, at most one for each file. *)
Theorem run_shows_every_file files count :
  let r := run_files files count in
  raised r = None ->
  count_events is_subheader (shown r) = length files /\
  count_events is_divider (shown r) = length files /\
  overall_success_count r = count + Z.of_nat (count_events is_success (shown r)) /\
  (count_events is_success (shown r) <= length files)%nat.
Proof.
  revert count. induction files as [|p files IH]; intros count r Hnone.
  - cbn. repeat split; lia.
  - unfold r in *. cbn [process_files] in *.
    pose proof (process_file_counts p count) as [Hs H].
    destruct (raised (run_file p count)) eqn:Hp; [congruence|].
    cbn [raised shown overall_success_count] in *.
    destruct (IH _ Hnone) as (I1 & I2 & I3 & I4).
    rewrite !count_events_app, Hs, I1, I2, I3. cbn [length].
    destruct H as (Hd & [(H2 & _ & H4)|(H2 & _ & H4)]); rewrite Hd, H2;
      repeat split; lia.
Qed.

End PageProperties.

Lemma empty_file_is_passed_over_witness :
  process_file sample_read_file sample_ast_parse Some sample_model
    sample_secrets sample_AzureOpenAI sample_display_path sample_format_2f
    "empty.py" 0 =
    {| shown := [st_subheader (str "Results for: " ++ sample_display_path "empty.py")%list;
                 st_divider];
       overall_success_count := 0;
       raised := None |}.
Proof.
  apply (empty_file_is_passed_over sample_read_file sample_ast_parse Some
           sample_model sample_secrets sample_AzureOpenAI sample_display_path
           sample_format_2f "empty.py" 0 (Module []) features_empty);
    reflexivity.
Defined.

Lemma exception_ends_the_run_witness :
  sample_process_files ["nested.py"; "pkg/mod.py"; "empty.py"] 0 =
    {| shown :=
         (shown (sample_process_files ["nested.py"] 0)
          ++ [st_subheader (str "Results for: " ++ sample_display_path "pkg/mod.py")%list])%list;
       overall_success_count :=
         overall_success_count (sample_process_files ["nested.py"] 0);
       raised := Some (UnboundLocalError "lib") |}.
Proof.
  apply (exception_ends_the_run sample_read_file sample_ast_parse Some
           sample_model sample_secrets sample_AzureOpenAI sample_display_path
           sample_format_2f ["nested.py"] "pkg/mod.py" ["empty.py"] 0
           (UnboundLocalError "lib")); reflexivity.
Defined.

Lemma run_shows_every_file_witness :
  count_events is_subheader (shown (sample_process_files ["nested.py"; "empty.py"] 0)) = 2%nat /\
  count_events is_divider (shown (sample_process_files ["nested.py"; "empty.py"] 0)) = 2%nat /\
  overall_success_count (sample_process_files ["nested.py"; "empty.py"] 0) =
    0 + Z.of_nat (count_events is_success
                    (shown (sample_process_files ["nested.py"; "empty.py"] 0))) /\
  (count_events is_success (shown (sample_process_files ["nested.py"; "empty.py"] 0))
   <= 2)%nat.
Proof.
  apply (run_shows_every_file sample_read_file sample_ast_parse Some
           sample_model sample_secrets sample_AzureOpenAI sample_display_path
           sample_format_2f ["nested.py"; "empty.py"] 0).
  reflexivity.
Defined.

(** The page for the file of the nested loops: features, prediction and
    recommendation. *)
Example page_nested_loops :
  map (fun ev : page_event Z =>
         match ev with
         | st_code t => Some t
         | st_success t => Some t
         | st_markdown t => Some t
         | _ => None
         end)
      (shown (sample_process_files ["nested.py"] 0)) =
  [None; None;
   Some ([32; 32; 8226; 32]%N ++ str "LOC                       : 3
" ++ [32; 32; 8226; 32]%N ++ str "No of Functions           : 0
" ++ [32; 32; 8226; 32]%N ++ str "No of Classes             : 0
" ++ [32; 32; 8226; 32]%N ++ str "No of Loops               : 2
" ++ [32; 32; 8226; 32]%N ++ str "Loop Nesting Depth        : 2
" ++ [32; 32; 8226; 32]%N ++ str "No of Conditional Blocks  : 0
" ++ [32; 32; 8226; 32]%N ++ str "Import Score              : 0
" ++ [32; 32; 8226; 32]%N ++ str "I/O Calls                 : 1")%list;
   None;
   Some (str "**Predicted Energy: 8.00 joules**");
   None; None; None; None;
   Some (str "**Recommendations:**");
   Some (str "Use a generator.");
   None].
Proof. vm_compute. reflexivity. Qed.

(** ** Finding the Python files *)

Example find_python_files_sample :
  find_python_files "/tmp/repo" sample_project =
  ["/tmp/repo/setup.py"; "/tmp/repo/src/app.py"; "/tmp/repo/src/venv.py"].
Proof. reflexivity. Qed.

Lemma endswith_cons c s suffix :
  endswith s suffix = true -> endswith (String c s) suffix = true.
Proof. intros H. cbn [endswith]. rewrite H. apply orb_true_r. Qed.

Lemma endswith_app a b suffix :
  endswith b suffix = true -> endswith (a ++ b) suffix = true.
Proof.
  intros H. induction a as [|c a IH]; [exact H|].
  change (String c a ++ b) with (String c (a ++ b)). now apply endswith_cons.
Qed.

Lemma path_join_endswith a b suffix :
  endswith b suffix = true -> endswith (path_join a b) suffix = true.
Proof.
  intros H. unfold path_join.
  assert (G : endswith (if negb (truthy a) || endswith a "/"
                        then a ++ b else a ++ "/" ++ b) suffix = true).
  { destruct (negb (truthy a) || endswith a "/").
    - now apply endswith_app.
    - apply endswith_app. now apply (endswith_app "/"). }
  destruct b as [|c b']; [exact G|].
  destruct c as [[] [] [] [] [] [] [] []]; try exact G; exact H.
Qed.

(** The subdirectories the walk descends into, with the files found there. *)
Lemma find_python_files_eq root d :
  find_python_files root d =
  (map (path_join root) (List.filter (fun file => endswith file ".py") (files_of d))
   ++ flat_map (fun ns : string * directory =>
                  if bool_decide (ns.1 ∈ excluded_dirs) then []
                  else find_python_files (path_join root ns.1) ns.2)
               (dirs_of d))%list.
Proof.
  destruct d as [dirs files]. cbn [find_python_files files_of dirs_of].
  f_equal. induction dirs as [|[name sub] dirs IH]; [reflexivity|].
  cbn [flat_map fst snd]. now rewrite IH.
Qed.

Lemma directory_ind' (P : directory -> Prop) :
  (forall d, Forall (fun ns : string * directory => P ns.2) (dirs_of d) -> P d) ->
  forall d, P d.
Proof.
  intros H. fix IH 1. intros [dirs files]. apply H. cbn [dirs_of].
  induction dirs as [|[name sub] dirs IHd]; constructor; [apply IH | exact IHd].
Qed.

(** X18: every path the search returns ends in [.py]. *)
Theorem found_files_end_in_py d : forall root,
  Forall (fun p => endswith p ".py" = true) (find_python_files root d).
Proof.
  induction d as [d IH] using directory_ind'. intros root.
  rewrite find_python_files_eq. apply Forall_app. split.
  - apply Forall_forall. intros p Hp. apply list_elem_of_In, in_map_iff in Hp.
    destruct Hp as (file & <- & Hfile). apply List.filter_In in Hfile as [_ Hpy].
    now apply path_join_endswith.
  - induction IH as [|[name sub] dirs Hsub _ IHdirs]; [constructor|].
    cbn [flat_map fst snd]. apply Forall_app. split; [|exact IHdirs].
    destruct (bool_decide (name ∈ excluded_dirs)); [constructor | apply Hsub].
Qed.

(** X19: the search returns exactly the files that end in [.py] and lie in
    the start directory or in a directory reached from it through
    directories none of which has an excluded name; each is returned as the
    directory names and the file name joined to the start path. *)
Theorem found_files_characterised d : forall root p,
  In p (find_python_files root d) <->
  exists names d' file,
    descends d names d' /\
    Forall (fun name => name ∉ excluded_dirs) names /\
    In file (files_of d') /\
    endswith file ".py" = true /\
    p = path_join (fold_left path_join names root) file.
Proof.
  induction d as [d IH] using directory_ind'. intros root p.
  rewrite find_python_files_eq, in_app_iff, in_map_iff, in_flat_map. split.
  - intros [(file & <- & Hfile)|((name & sub) & Hin & Hp)].
    + apply List.filter_In in Hfile as [Hfile Hpy].
      exists [], d, file. repeat split; try assumption; constructor.
    + cbn [fst snd] in Hp.
      destruct (bool_decide (name ∈ excluded_dirs)) eqn:Hex; [contradiction|].
      apply bool_decide_eq_false in Hex.
      rewrite Forall_forall in IH.
      specialize (IH (name, sub) (proj2 (list_elem_of_In _ _) Hin)
                     (path_join root name) p).
      cbn [snd] in IH.
      apply IH in Hp as (names & d' & file & Hd & Hnames & Hfile & Hpy & ->).
      exists (name :: names), d', file. repeat split; try assumption.
      * destruct d as [dirs files]. econstructor; eassumption.
      * constructor; assumption.
  - intros (names & d' & file & Hd & Hnames & Hfile & Hpy & ->).
    inversion Hd as [|dirs files name sub names' d'' Hin Hsub]; subst.
    + left. exists file. split; [reflexivity|].
      apply List.filter_In. split; assumption.
    + right. exists (name, sub). split; [exact Hin|]. cbn [fst snd].
      inversion Hnames as [|? ? Hname Hrest]; subst.
      rewrite bool_decide_eq_false_2 by exact Hname.
      rewrite Forall_forall in IH.
      specialize (IH (name, sub) (proj2 (list_elem_of_In _ _) Hin)
                     (path_join root name)
                     (path_join (fold_left path_join names' (path_join root name)) file)).
      cbn [snd] in IH. apply IH.
      exists names', d', file. repeat split; assumption.
Qed.

(** ** The GitHub address *)

Example parse_github_url_samples :
  parse_github_url (str "https://github.com/skills/introduction-to-github") =
    Some {| repo_url_base := str "https://github.com/skills/introduction-to-github";
            target_subdir_in_repo := None;
            potential_branches := [str "main"; str "master"] |} /\
  parse_github_url (str "http://github.com/u/r.git/tree/dev/src/pkg/") =
    Some {| repo_url_base := str "https://github.com/u/r";
            target_subdir_in_repo := Some (str "src/pkg");
            potential_branches := [str "dev"] |} /\
  parse_github_url (str "https://github.com/u/my.github.io") =
    Some {| repo_url_base := str "https://github.com/u/myhub.io";
            target_subdir_in_repo := None;
            potential_branches := [str "main"; str "master"] |} /\
  parse_github_url (str "https://github.com/u") = None /\
  parse_github_url (str "https://github.com/u/r/blob/main/a.py") =
    Some {| repo_url_base := str "https://github.com/u/r";
            target_subdir_in_repo := None;
            potential_branches := [str "main"; str "master"] |}.
Proof. repeat split; vm_compute; reflexivity. Qed.

Lemma str_String c w : str (String c w) = N.of_nat (nat_of_ascii c) :: str w.
Proof. reflexivity. Qed.

Lemma str_app a b : str (a ++ b) = (str a ++ str b)%list.
Proof.
  induction a as [|c a IH]; [reflexivity|].
  change (String c a ++ b) with (String c (a ++ b)).
  rewrite !str_String, IH. reflexivity.
Qed.

Lemma is_prefix_app p q s :
  is_prefix (p ++ q)%list s = is_prefix p s && is_prefix q (drop (length p) s).
Proof.
  revert s. induction p as [|a p IH]; intros s; [reflexivity|].
  destruct s as [|b s]; [reflexivity|]. cbn [app is_prefix length drop].
  now rewrite IH, andb_assoc.
Qed.

Lemma is_prefix_refl_app p s : is_prefix p (p ++ s)%list = true.
Proof.
  induction p as [|a p IH]; [reflexivity|]. cbn. now rewrite N.eqb_refl, IH.
Qed.

(** A literal matches exactly the texts it is a prefix of. *)
Lemma literal_match w s caps k :
  match_regex (literal w) s caps k =
  if is_prefix (str w) s then k (drop (length (str w)) s) caps else None.
Proof.
  revert s. induction w as [|c w IH]; intros s; [reflexivity|].
  rewrite str_String. cbn [literal match_regex].
  destruct s as [|b s]; [reflexivity|].
  cbn [in_class is_prefix length drop]. rewrite N.eqb_sym.
  destruct (N.of_nat (nat_of_ascii c) =? b)%N; [apply IH | reflexivity].
Qed.

Lemma literal_match_app w s caps k :
  match_regex (literal w) (str w ++ s)%list caps k = k s caps.
Proof.
  rewrite literal_match, is_prefix_refl_app, drop_app_length. reflexivity.
Qed.

(** A greedy run that cannot be continued and after which the rest of the
    pattern matches. *)
Lemma many_run {R} cls run rest (k : text -> option R) x :
  Forall (fun c => in_class cls c = true) run ->
  match rest with [] => True | c :: _ => in_class cls c = false end ->
  k rest = Some x ->
  many cls (run ++ rest)%list k = Some x.
Proof.
  intros Hrun Hrest Hk. induction Hrun as [|c run Hc _ IH].
  - destruct rest as [|c rest']; [exact Hk|].
    cbn [app many]. now rewrite Hrest.
  - cbn [app many]. now rewrite Hc, IH.
Qed.

(** A greedy run after which the rest of the pattern matches nowhere. *)
Lemma many_none {R} cls s (k : text -> option R) :
  (forall n, k (drop n s) = None) -> many cls s k = None.
Proof.
  induction s as [|c s IH]; intros Hk; [exact (Hk 0%nat)|].
  cbn [many]. destruct (in_class cls c).
  - rewrite IH; [exact (Hk 0%nat)|]. intros n. exact (Hk (S n)).
  - exact (Hk 0%nat).
Qed.

Lemma not_slash_class run :
  Forall (fun c => c <> slash) run ->
  Forall (fun c => in_class (NotChar slash) c = true) run.
Proof.
  intros H. eapply Forall_impl; [exact H|].
  intros c Hc. cbn. now apply negb_true_iff, N.eqb_neq.
Qed.

Lemma stops_at_slash_class rest :
  stops_at_slash rest = true ->
  match rest with [] => True | c :: _ => in_class (NotChar slash) c = false end.
Proof. destruct rest as [|c rest]; [easy|]. cbn. now intros ->. Qed.

(** A group of one or more characters other than a slash takes the whole
    run up to the next slash or the end. *)
Lemma group_run i run rest caps k x :
  run <> [] ->
  Forall (fun c => c <> slash) run ->
  stops_at_slash rest = true ->
  k rest (<[i := run]> caps) = Some x ->
  match_regex (Group i (Many1 (NotChar slash))) (run ++ rest)%list caps k = Some x.
Proof.
  intros Hne Hrun Hrest Hk.
  destruct run as [|c run]; [contradiction|].
  apply not_slash_class in Hrun. inversion Hrun as [|? ? Hc Hrun']; subst.
  cbn [match_regex app]. rewrite Hc.
  apply (many_run (NotChar slash) run rest); [exact Hrun'| |].
  - now apply stops_at_slash_class.
  - cbn [length]. rewrite length_app.
    replace (S (length run + length rest) - length rest)%nat
      with (length (c :: run)) by (cbn; lia).
    change (c :: (run ++ rest)%list) with ((c :: run) ++ rest)%list.
    rewrite take_app_length. exact Hk.
Qed.

Lemma match_Seq r1 r2 s caps k :
  match_regex (Seq r1 r2) s caps k =
  match_regex r1 s caps (fun s' caps' => match_regex r2 s' caps' k).
Proof. reflexivity. Qed.

Lemma match_Optional r s caps k :
  match_regex (Optional r) s caps k =
  match match_regex r s caps k with
  | Some m => Some m
  | None => k s caps
  end.
Proof. reflexivity. Qed.

Lemma match_OneChar c s caps k :
  match_regex (Chars (OneChar c)) (c :: s) caps k = k s caps.
Proof. cbn. now rewrite N.eqb_refl. Qed.

Lemma match_Group i r s caps k :
  match_regex (Group i r) s caps k =
  match_regex r s caps
    (fun s' caps' => k s' (<[i := take (length s - length s') s]> caps')).
Proof. reflexivity. Qed.

Lemma match_Many cls s caps k :
  match_regex (Many cls) s caps k = many cls s (fun s' => k s' caps).
Proof. reflexivity. Qed.

Lemma match_OneChar_nil c caps k :
  match_regex (Chars (OneChar c)) [] caps k = None.
Proof. reflexivity. Qed.

(** The start of the pattern: both schemes are accepted, and the match
    goes on after the host. *)
Lemma scheme_match secure t :
  re_match github_url_pattern (scheme secure ++ str "://github.com/" ++ t)%list =
  match_regex repository_pattern t ∅ (fun _ caps => Some caps).
Proof.
  unfold re_match, github_url_pattern.
  rewrite match_Seq. destruct secure; unfold scheme.
  - change (str "https") with (str "http" ++ [115%N])%list.
    rewrite <- app_assoc, literal_match_app. cbv beta.
    rewrite match_Seq, match_Optional.
    change ([115%N] ++ str "://github.com/" ++ t)%list
      with (115%N :: (str "://github.com/" ++ t)%list).
    rewrite match_OneChar. cbv beta. rewrite match_Seq, literal_match_app.
    cbv beta.
    destruct (match_regex repository_pattern t ∅ _) eqn:E; [reflexivity|].
    reflexivity.
  - rewrite literal_match_app. cbv beta.
    rewrite match_Seq, match_Optional.
    assert (E : forall k, match_regex (Chars (OneChar 115%N))
                  (str "://github.com/" ++ t)%list ∅ k = None) by reflexivity.
    rewrite E. cbv beta. rewrite match_Seq, literal_match_app. reflexivity.
Qed.

(** The groups of an address of a repository, followed by something that
    is not a tree. *)
Lemma repository_match user repo rest :
  user <> [] -> Forall (fun c => c <> slash) user ->
  repo <> [] -> Forall (fun c => c <> slash) repo ->
  stops_at_slash rest = true ->
  is_prefix (str "/tree/") rest = false ->
  match_regex repository_pattern (user ++ [slash] ++ repo ++ rest)%list ∅
    (fun _ caps => Some caps) =
  Some (<[2%nat := repo]> (<[1%nat := user]> ∅)).
Proof.
  intros Hu1 Hu2 Hr1 Hr2 Hrest Htree. unfold repository_pattern.
  rewrite match_Seq.
  apply group_run; [exact Hu1 | exact Hu2 | reflexivity|].
  rewrite match_Seq. change ([slash] ++ repo ++ rest)%list with (slash :: (repo ++ rest)%list).
  rewrite match_OneChar, match_Seq.
  apply group_run; [exact Hr1 | exact Hr2 | exact Hrest|].
  rewrite match_Optional. unfold tree_pattern.
  rewrite match_Seq, literal_match, Htree. reflexivity.
Qed.

(** The groups of an address of a tree: a branch and, after a slash, a
    subdirectory. *)
Lemma tree_match user repo branch rest2 :
  user <> [] -> Forall (fun c => c <> slash) user ->
  repo <> [] -> Forall (fun c => c <> slash) repo ->
  branch <> [] -> Forall (fun c => c <> slash) branch ->
  match rest2 with
  | [] => True
  | c :: subdir => c = slash /\ Forall (fun c => c <> LF) subdir
  end ->
  match_regex repository_pattern
    (user ++ [slash] ++ repo ++ str "/tree/" ++ branch ++ rest2)%list ∅
    (fun _ caps => Some caps) =
  Some (match rest2 with
        | [] => <[3%nat := branch]> (<[2%nat := repo]> (<[1%nat := user]> ∅))
        | _ :: subdir =>
            <[4%nat := slash :: subdir]>
              (<[5%nat := subdir]>
                 (<[3%nat := branch]> (<[2%nat := repo]> (<[1%nat := user]> ∅))))
        end).
Proof.
  intros Hu1 Hu2 Hr1 Hr2 Hb1 Hb2 Hrest2. unfold repository_pattern.
  rewrite match_Seq.
  apply group_run; [exact Hu1 | exact Hu2 | reflexivity|].
  rewrite match_Seq.
  change ([slash] ++ repo ++ str "/tree/" ++ branch ++ rest2)%list
    with (slash :: (repo ++ str "/tree/" ++ branch ++ rest2)%list).
  rewrite match_OneChar, match_Seq.
  apply group_run; [exact Hr1 | exact Hr2 | reflexivity|].
  rewrite match_Optional. unfold tree_pattern.
  rewrite match_Seq, literal_match_app. cbv beta. rewrite match_Seq.
  assert (G :
    match_regex (Group 3 (Many1 (NotChar slash))) (branch ++ rest2)%list
      (<[2%nat := repo]> (<[1%nat := user]> ∅))
      (fun s' caps' =>
         match_regex
           (Optional (Group 4 (Seq (Chars (OneChar slash)) (Group 5 (Many AnyChar)))))
           s' caps' (fun _ caps'' => Some caps'')) =
    Some (match rest2 with
          | [] => <[3%nat := branch]> (<[2%nat := repo]> (<[1%nat := user]> ∅))
          | _ :: subdir =>
              <[4%nat := slash :: subdir]>
                (<[5%nat := subdir]>
                   (<[3%nat := branch]> (<[2%nat := repo]> (<[1%nat := user]> ∅))))
          end)).
  { apply group_run; [exact Hb1 | exact Hb2 | |].
    - destruct rest2 as [|c subdir]; [reflexivity|]. destruct Hrest2 as [-> _].
      reflexivity.
    - rewrite match_Optional.
      destruct rest2 as [|c subdir]; [reflexivity|]. destruct Hrest2 as [-> Hsub].
      rewrite match_Group, match_Seq, match_OneChar, match_Group, match_Many.
      rewrite <- (app_nil_r subdir) at 1.
      erewrite many_run; [reflexivity| |exact I|].
      + eapply Forall_impl; [exact Hsub|]. intros c Hc. cbn.
        now apply negb_true_iff, N.eqb_neq.
      + cbn [length]. rewrite !Nat.sub_0_r.
        change (S (length subdir)) with (length (slash :: subdir)).
        now rewrite !firstn_all. }
  rewrite G. reflexivity.
Qed.

Lemma parse_repository secure user repo rest :
  user <> [] -> Forall (fun c => c <> slash) user ->
  repo <> [] -> Forall (fun c => c <> slash) repo ->
  stops_at_slash rest = true ->
  is_prefix (str "/tree/") rest = false ->
  parse_github_url
    (scheme secure ++ str "://github.com/" ++ user ++ [slash] ++ repo ++ rest)%list =
  Some {| repo_url_base :=
            (str "https://github.com/" ++ user ++ [slash]
             ++ replace (str ".git") [] repo)%list;
          target_subdir_in_repo := None;
          potential_branches := [str "main"; str "master"] |}.
Proof.
  intros Hu1 Hu2 Hr1 Hr2 Hrest Htree. unfold parse_github_url.
  rewrite scheme_match, repository_match by assumption.
  lookup_groups. reflexivity.
Qed.

(** X20: an address of a repository, with either scheme, a user and a
    repository name without slashes, and then nothing or a path that is
    not a tree, is accepted: the base address is the https address of the
    repository, with every [.git] removed from its name, no subdirectory
    is targeted and the branches to try are main and master. *)
Theorem repository_address_parsed secure user repo rest :
  user <> [] -> Forall (fun c => c <> slash) user ->
  repo <> [] -> Forall (fun c => c <> slash) repo ->
  stops_at_slash rest = true ->
  is_prefix (str "/tree/") rest = false ->
  parse_github_url
    (scheme secure ++ str "://github.com/" ++ user ++ [slash] ++ repo ++ rest)%list =
  Some {| repo_url_base :=
            (str "https://github.com/" ++ user ++ [slash]
             ++ replace (str ".git") [] repo)%list;
          target_subdir_in_repo := None;
          potential_branches := [str "main"; str "master"] |}.
Proof. apply parse_repository. Qed.

Lemma repository_address_parsed_witness :
  parse_github_url
    (scheme false ++ str "://github.com/" ++ str "skills" ++ [slash]
     ++ str "introduction-to-github" ++ str "/issues")%list =
  Some {| repo_url_base :=
            (str "https://github.com/" ++ str "skills" ++ [slash]
             ++ replace (str ".git") [] (str "introduction-to-github"))%list;
          target_subdir_in_repo := None;
          potential_branches := [str "main"; str "master"] |}.
Proof.
  apply (repository_address_parsed false (str "skills")
           (str "introduction-to-github") (str "/issues"));
    try discriminate; try reflexivity;
    apply Forall_forall; intros c Hc; apply list_elem_of_In in Hc;
    cbn in Hc; intuition (subst; discriminate).
Defined.

(** X21: an address of a tree names the only branch that is tried, and
    what follows the branch, without the slashes at its ends, is the
    targeted subdirectory; no subdirectory is targeted when nothing, or
    only a slash, follows the branch. *)
Theorem tree_address_parsed secure user repo branch rest2 :
  user <> [] -> Forall (fun c => c <> slash) user ->
  repo <> [] -> Forall (fun c => c <> slash) repo ->
  branch <> [] -> Forall (fun c => c <> slash) branch ->
  match rest2 with
  | [] => True
  | c :: subdir => c = slash /\ Forall (fun c => c <> LF) subdir
  end ->
  parse_github_url
    (scheme secure ++ str "://github.com/" ++ user ++ [slash] ++ repo
     ++ str "/tree/" ++ branch ++ rest2)%list =
  Some {| repo_url_base :=
            (str "https://github.com/" ++ user ++ [slash]
             ++ replace (str ".git") [] repo)%list;
          target_subdir_in_repo :=
            match rest2 with
            | _ :: c :: subdir => Some (strip_slashes (c :: subdir))
            | _ => None
            end;
          potential_branches := [branch] |}.
Proof.
  intros Hu1 Hu2 Hr1 Hr2 Hb1 Hb2 Hrest2. unfold parse_github_url.
  rewrite scheme_match, tree_match by assumption.
  destruct rest2 as [|c0 subdir].
  - lookup_groups. destruct branch; [contradiction | reflexivity].
  - lookup_groups. destruct branch; [contradiction|]. destruct subdir; reflexivity.
Qed.

Lemma tree_address_parsed_witness :
  parse_github_url
    (scheme true ++ str "://github.com/" ++ str "u" ++ [slash] ++ str "r"
     ++ str "/tree/" ++ str "dev" ++ str "/src/pkg/")%list =
  Some {| repo_url_base :=
            (str "https://github.com/" ++ str "u" ++ [slash]
             ++ replace (str ".git") [] (str "r"))%list;
          target_subdir_in_repo := Some (strip_slashes (str "src/pkg/"));
          potential_branches := [str "dev"] |}.
Proof.
  apply (tree_address_parsed true (str "u") (str "r") (str "dev") (str "/src/pkg/"));
    try discriminate; try (split; [reflexivity|]);
    apply Forall_forall; intros c Hc; apply list_elem_of_In in Hc;
    cbn in Hc; intuition (subst; discriminate).
Defined.

Lemma is_prefix_true p s :
  is_prefix p s = true -> s = (p ++ drop (length p) s)%list.
Proof.
  revert s. induction p as [|a p IH]; intros s H; [reflexivity|].
  destruct s as [|b s]; [discriminate|]. cbn in H.
  apply andb_prop in H as [Hab Hp]. apply N.eqb_eq in Hab. subst b.
  cbn. f_equal. now apply IH.
Qed.

(** X22: an address that starts neither with http://github.com/ nor with
    https://github.com/ is rejected by the pattern, also when it passed
    the first test of the page because github.com occurs in it. *)
Theorem other_addresses_rejected url :
  is_prefix (str "http://github.com/") url = false ->
  is_prefix (str "https://github.com/") url = false ->
  parse_github_url url = None.
Proof.
  intros H1 H2. unfold parse_github_url.
  replace (re_match github_url_pattern url) with (@None captures); [reflexivity|].
  symmetry. unfold re_match, github_url_pattern.
  rewrite match_Seq, literal_match.
  destruct (is_prefix (str "http") url) eqn:Hp; [|reflexivity].
  apply is_prefix_true in Hp.
  set (s1 := drop (length (str "http")) url) in *.
  rewrite Hp in H1, H2.
  change (str "http://github.com/") with (str "http" ++ str "://github.com/")%list in H1.
  change (str "https://github.com/") with (str "http" ++ str "s://github.com/")%list in H2.
  rewrite is_prefix_app, is_prefix_refl_app, drop_app_length in H1, H2.
  cbn [andb] in H1, H2.
  rewrite match_Seq, match_Optional.
  assert (Hfall : match_regex (Seq (literal "://github.com/") repository_pattern)
                    s1 ∅ (fun _ caps => Some caps) = None).
  { now rewrite match_Seq, literal_match, H1. }
  destruct s1 as [|c s'] eqn:Es1; [exact Hfall|].
  cbn [match_regex in_class] in *.
  destruct (c =? 115)%N eqn:Ec; [|exact Hfall].
  apply N.eqb_eq in Ec. subst c.
  change (str "s://github.com/") with (115%N :: str "://github.com/") in H2.
  cbn [is_prefix] in H2. rewrite N.eqb_refl in H2. cbn [andb] in H2.
  fold (match_regex (literal "://github.com/")).
  change (match_regex (Seq (literal "://github.com/") repository_pattern) s' ∅
            (fun _ caps => Some caps))
    with (match_regex (literal "://github.com/") s' ∅
            (fun s'0 caps' => match_regex repository_pattern s'0 caps'
                                (fun _ caps => Some caps))).
  rewrite literal_match, H2. exact Hfall.
Qed.

Lemma other_addresses_rejected_witness :
  is_github_url (str "https://example.org/github.com/u/r") = true /\
  parse_github_url (str "https://example.org/github.com/u/r") = None.
Proof.
  split; [reflexivity|].
  apply (other_addresses_rejected (str "https://example.org/github.com/u/r"));
    reflexivity.
Defined.

Lemma drop_not_slash n t :
  Forall (fun c => c <> slash) t ->
  match drop n t with
  | [] => True
  | c :: _ => (c =? slash)%N = false
  end.
Proof.
  intros H. assert (Hd : Forall (fun c => c <> slash) (drop n t)).
  { apply Forall_forall. intros c Hc. rewrite Forall_forall in H. apply H.
    revert Hc. apply subseteq_drop. }
  destruct (drop n t) as [|c rest]; [exact I|].
  inversion Hd; subst. now apply N.eqb_neq.
Qed.

(** X23: an address that names a user but no repository, even with either
    scheme and the right host, is rejected: the pattern asks for a slash
    and a name after the user. *)
Theorem address_without_repository_rejected secure user :
  Forall (fun c => c <> slash) user ->
  parse_github_url (scheme secure ++ str "://github.com/" ++ user)%list = None.
Proof.
  intros Hu. unfold parse_github_url. rewrite scheme_match.
  replace (match_regex repository_pattern user ∅ (fun _ caps => Some caps))
    with (@None captures); [reflexivity|].
  symmetry. unfold repository_pattern. rewrite match_Seq, match_Group.
  destruct user as [|c user]; [reflexivity|].
  inversion Hu as [|? ? Hc Hu']; subst.
  change (match_regex (Many1 (NotChar slash)) (c :: user) ∅ ?k)
    with (if in_class (NotChar slash) c
          then many (NotChar slash) user (fun s'' => k s'' ∅) else None).
  destruct (in_class (NotChar slash) c); [|reflexivity].
  apply many_none. intros n. cbv beta. rewrite match_Seq.
  pose proof (drop_not_slash n user Hu') as Hd.
  destruct (drop n user) as [|c0 rest]; [reflexivity|].
  change (match_regex (Chars (OneChar slash)) (c0 :: rest) ?caps ?k)
    with (if (c0 =? slash)%N then k rest caps else None).
  now rewrite Hd.
Qed.

Lemma address_without_repository_rejected_witness :
  parse_github_url (scheme true ++ str "://github.com/" ++ str "skills")%list = None.
Proof.
  apply (address_without_repository_rejected true (str "skills")).
  apply Forall_forall; intros c Hc; apply list_elem_of_In in Hc;
    cbn in Hc; intuition (subst; discriminate).
Defined.

Lemma replace_without_dot name :
  Forall (fun c => c <> dot) name -> replace (str ".git") [] name = name.
Proof.
  unfold replace. induction 1 as [|c name Hc _ IH]; [reflexivity|].
  cbn [replace_from]. change (str ".git") with (dot :: str "git") at 1.
  cbn [is_prefix]. apply N.eqb_neq in Hc. rewrite N.eqb_sym in Hc. rewrite Hc.
  cbn [andb]. now rewrite IH.
Qed.

Lemma replace_dot_git_suffix name :
  Forall (fun c => c <> dot) name ->
  replace (str ".git") [] (name ++ str ".git")%list = name.
Proof.
  unfold replace. induction 1 as [|c name Hc _ IH]; [reflexivity|].
  cbn [app replace_from]. change (str ".git") with (dot :: str "git") at 1.
  cbn [is_prefix]. apply N.eqb_neq in Hc. rewrite N.eqb_sym in Hc. rewrite Hc.
  cbn [andb]. now rewrite IH.
Qed.

(** X24: for a repository name without a dot, the address that ends in
    [.git] is read like the address without it: the same base address,
    no subdirectory, the branches main and master. *)
Theorem clone_address_parsed secure user name :
  user <> [] -> Forall (fun c => c <> slash) user ->
  name <> [] -> Forall (fun c => c <> slash) name ->
  Forall (fun c => c <> dot) name ->
  parse_github_url
    (scheme secure ++ str "://github.com/" ++ user ++ [slash] ++ name ++ str ".git")%list =
  Some {| repo_url_base := (str "https://github.com/" ++ user ++ [slash] ++ name)%list;
          target_subdir_in_repo := None;
          potential_branches := [str "main"; str "master"] |} /\
  parse_github_url
    (scheme secure ++ str "://github.com/" ++ user ++ [slash] ++ name ++ str ".git")%list =
  parse_github_url
    (scheme secure ++ str "://github.com/" ++ user ++ [slash] ++ name)%list.
Proof.
  intros Hu1 Hu2 Hn1 Hn2 Hdot.
  pose proof (parse_repository secure user (name ++ str ".git")%list [] Hu1 Hu2) as H1.
  pose proof (parse_repository secure user name [] Hu1 Hu2 Hn1 Hn2 eq_refl eq_refl) as H2.
  rewrite !app_nil_r in H1, H2.
  rewrite replace_dot_git_suffix in H1 by exact Hdot.
  rewrite replace_without_dot in H2 by exact Hdot.
  rewrite H1, H2; [split; reflexivity| | | |].
  - destruct name; [contradiction | discriminate].
  - apply Forall_app. split; [exact Hn2|].
    apply Forall_forall; intros c Hc; apply list_elem_of_In in Hc;
      cbn in Hc; intuition (subst; discriminate).
  - reflexivity.
  - reflexivity.
Qed.

Lemma clone_address_parsed_witness :
  parse_github_url
    (scheme true ++ str "://github.com/" ++ str "u" ++ [slash] ++ str "repo" ++ str ".git")%list =
  Some {| repo_url_base := (str "https://github.com/" ++ str "u" ++ [slash] ++ str "repo")%list;
          target_subdir_in_repo := None;
          potential_branches := [str "main"; str "master"] |} /\
  parse_github_url
    (scheme true ++ str "://github.com/" ++ str "u" ++ [slash] ++ str "repo" ++ str ".git")%list =
  parse_github_url
    (scheme true ++ str "://github.com/" ++ str "u" ++ [slash] ++ str "repo")%list.
Proof.
  apply (clone_address_parsed true (str "u") (str "repo")); try discriminate;
    apply Forall_forall; intros c Hc; apply list_elem_of_In in Hc;
    cbn in Hc; intuition (subst; discriminate).
Defined.

(** ** The download of the archive *)

Lemma download_zip_all_fail get repo_url_base branches :
  Forall (fun b => exists e, get (potential_zip_url repo_url_base b) = inl e) branches ->
  download_zip get repo_url_base branches = (None, zip_urls repo_url_base branches).
Proof.
  induction 1 as [|b branches [e He] _ IH]; [reflexivity|].
  cbn [download_zip zip_urls map]. rewrite He, IH. reflexivity.
Qed.

(** X25: the branches are tried in order and the first download that
    succeeds ends the loop: its content is kept, the addresses requested
    are those of the branches up to this one, and no later branch is
    requested. *)
Theorem first_successful_branch_is_kept get repo_url_base before b after content :
  Forall (fun b' => exists e, get (potential_zip_url repo_url_base b') = inl e) before ->
  get (potential_zip_url repo_url_base b) = inr content ->
  download_zip get repo_url_base (before ++ b :: after)%list =
    (Some content, zip_urls repo_url_base (before ++ [b])%list).
Proof.
  intros Hbefore Hb. induction Hbefore as [|b' before [e He] _ IH].
  - cbn [app download_zip]. rewrite Hb. reflexivity.
  - cbn [app download_zip zip_urls map]. rewrite He, IH. reflexivity.
Qed.

Lemma first_successful_branch_is_kept_witness :
  download_zip (sample_get (str "master")) (str "https://github.com/u/r")
    ([str "main"] ++ str "master" :: [str "develop"])%list =
    (Some (str "PK"),
     zip_urls (str "https://github.com/u/r") ([str "main"] ++ [str "master"])%list).
Proof.
  apply (first_successful_branch_is_kept (sample_get (str "master"))
           (str "https://github.com/u/r") [str "main"] (str "master")
           [str "develop"] (str "PK")).
  - constructor; [|constructor]. eexists. reflexivity.
  - reflexivity.
Defined.

(** X26: when the download fails for every branch, every branch has been
    requested, in order, and there is no content. *)
Theorem all_branches_tried_on_failure get repo_url_base branches :
  Forall (fun b => exists e, get (potential_zip_url repo_url_base b) = inl e) branches ->
  download_zip get repo_url_base branches = (None, zip_urls repo_url_base branches).
Proof. apply download_zip_all_fail. Qed.

Lemma all_branches_tried_on_failure_witness :
  download_zip (sample_get (str "trunk")) (str "https://github.com/u/r")
    [str "main"; str "master"] =
    (None, zip_urls (str "https://github.com/u/r") [str "main"; str "master"]).
Proof.
  apply (all_branches_tried_on_failure (sample_get (str "trunk"))
           (str "https://github.com/u/r") [str "main"; str "master"]).
  repeat constructor; eexists; reflexivity.
Defined.

(** X27: for the address of a repository whose name has no dot, the first
    archive requested is that of the branch main of the https address of
    the repository, and the archive of master is requested exactly when
    that download failed; no other address is requested. *)
Theorem repository_archive_requests get secure user name rest :
  user <> [] -> Forall (fun c => c <> slash) user ->
  name <> [] -> Forall (fun c => c <> slash) name ->
  Forall (fun c => c <> dot) name ->
  stops_at_slash rest = true ->
  is_prefix (str "/tree/") rest = false ->
  let base := (str "https://github.com/" ++ user ++ [slash] ++ name)%list in
  let main := (base ++ str "/archive/refs/heads/main.zip")%list in
  let master := (base ++ str "/archive/refs/heads/master.zip")%list in
  github_download get
    (scheme secure ++ str "://github.com/" ++ user ++ [slash] ++ name ++ rest)%list =
  Some (match get main with
        | inr content => (Some content, [main])
        | inl _ =>
            match get master with
            | inr content => (Some content, [main; master])
            | inl _ => (None, [main; master])
            end
        end).
Proof.
  intros Hu1 Hu2 Hn1 Hn2 Hdot Hrest Htree base main master.
  unfold github_download.
  rewrite (parse_repository secure user name rest) by assumption.
  rewrite replace_without_dot by exact Hdot.
  cbn [repo_url_base potential_branches download_zip].
  unfold potential_zip_url. fold base.
  change (base ++ str "/archive/refs/heads/" ++ str "main" ++ str ".zip")%list with main.
  change (base ++ str "/archive/refs/heads/" ++ str "master" ++ str ".zip")%list with master.
  destruct (get main); [|reflexivity].
  destruct (get master); reflexivity.
Qed.

Lemma repository_archive_requests_witness :
  let base := (str "https://github.com/" ++ str "u" ++ [slash] ++ str "r")%list in
  let main := (base ++ str "/archive/refs/heads/main.zip")%list in
  let master := (base ++ str "/archive/refs/heads/master.zip")%list in
  github_download (sample_get (str "master"))
    (scheme false ++ str "://github.com/" ++ str "u" ++ [slash] ++ str "r"
     ++ str "/")%list =
  Some (match sample_get (str "master") main with
        | inr content => (Some content, [main])
        | inl _ =>
            match sample_get (str "master") master with
            | inr content => (Some content, [main; master])
            | inl _ => (None, [main; master])
            end
        end).
Proof.
  apply (repository_archive_requests (sample_get (str "master")) false
           (str "u") (str "r") (str "/")); try discriminate; try reflexivity;
    apply Forall_forall; intros c Hc; apply list_elem_of_In in Hc;
    cbn in Hc; intuition (subst; discriminate).
Defined.
